(** * report-script: the extraction pass and the formatter of [main.go]

    A shallow embedding of [generateReport], [count] and [isBot], together
    with the few primitives of [golang.org/x/net/html], [cascadia] and
    [goquery] that [generateReport] calls, and the properties of the
    report that follow from them. *)

From Stdlib Require Import ZArith Lia Ascii String.
From stdpp Require Import base strings list gmap fin_maps pretty.

Set Warnings "-register-all".
Local Open Scope string_scope.
Local Open Scope Z_scope.
Local Open Scope list_scope.

(** ** Strings *)

Module Str.

(** [strings.HasPrefix]-style test, byte by byte. *)
Fixpoint has_prefix (p s : string) : bool :=
  match p, s with
  | EmptyString, _ => true
  | String a p', String b s' => if Ascii.eqb a b then has_prefix p' s' else false
  | String _ _, EmptyString => false
  end.

(** A literal pattern matches a string when it occurs somewhere in it:
    what [regexp.MatchString] does for a pattern without metacharacters. *)
Fixpoint contains (sub s : string) : bool :=
  has_prefix sub s ||
  match s with
  | EmptyString => false
  | String _ s' => contains sub s'
  end.

(** The separators [cascadia] splits a class attribute at: space, tab,
    carriage return, newline and form feed. *)
Definition is_class_sep (c : Ascii.ascii) : bool :=
  let n := Ascii.nat_of_ascii c in
  (n =? 32)%nat || (n =? 9)%nat || (n =? 13)%nat || (n =? 10)%nat || (n =? 12)%nat.

(** [matchInclude]: [val] is one of the tokens of [s] between separators.
    [cur] is the token read so far (reversed) and [head] tells that the
    loop of [matchInclude] is at its head, where an empty rest ends it. *)
Fixpoint match_include (val cur : string) (head : bool) (s : string) : bool :=
  match s with
  | EmptyString => if head then false else String.eqb (String.rev cur) val
  | String c s' =>
      if is_class_sep c
      then String.eqb (String.rev cur) val || match_include val EmptyString true s'
      else match_include val (String c cur) false s'
  end.

(** Splits a compound selector [tag.class] at its first dot. *)
Fixpoint split_dot (s : string) : string * option string :=
  match s with
  | EmptyString => (EmptyString, None)
  | String c s' =>
      if Ascii.eqb c "."%char then (EmptyString, Some s')
      else let '(t, k) := split_dot s' in (String c t, k)
  end.

End Str.

(** ** The parsed document ([html.Node]) *)

Inductive NodeType : Set :=
| ErrorNode | TextNode | DocumentNode | ElementNode | CommentNode | DoctypeNode.

Record Attribute : Set := { Key : string; Val : string }.

(** A node with its children in sibling order: [FirstChild] is the head of
    [Children] and [NextSibling] the next element of the parent's list. *)
Inductive Node : Set :=
  mkNode { Type_ : NodeType; Data : string; Attr : list Attribute; Children : list Node }.

Definition isElement (n : Node) : bool :=
  match Type_ n with ElementNode => true | _ => false end.

Definition isText (n : Node) : bool :=
  match Type_ n with TextNode => true | _ => false end.

(** ** Selectors ([cascadia]) and selections ([goquery]) *)

Module goquery.

(** The selectors of [main.go] are a tag name, or a tag name and a class. *)
Record Matcher : Set := { m_tag : string; m_class : option string }.

Definition compileMatcher (selector : string) : Matcher :=
  let '(t, k) := Str.split_dot selector in {| m_tag := t; m_class := k |}.

(** The class selector: some [class] attribute has the class among its
    separated tokens. *)
Definition hasClass (k : string) (n : Node) : bool :=
  existsb (fun a => String.eqb (Key a) "class" &&
                    Str.match_include k EmptyString true (Val a))
          (Attr n).

Definition Match (m : Matcher) (n : Node) : bool :=
  isElement n && String.eqb (Data n) (m_tag m) &&
  match m_class m with
  | None => true
  | Some k => hasClass k n
  end.

(** A selection is the list of its nodes ([Selection.Nodes]). *)
Definition Selection : Set := list Node.

(** [getChildrenNodes(nodes, siblingAll)]: the element children of each node. *)
Definition ChildrenOf (s : Selection) : Selection :=
  flat_map (fun n => List.filter isElement (Children n)) s.

(** [Selection.ChildrenFiltered]. *)
Definition ChildrenFiltered (selector : string) (s : Selection) : Selection :=
  List.filter (Match (compileMatcher selector)) (ChildrenOf s).

(** [Selection.Is]: some node of the selection matches. *)
Definition Is (selector : string) (s : Selection) : bool :=
  existsb (Match (compileMatcher selector)) s.

(** [Matcher.MatchAll]: the node and its descendants that match, in
    document order. *)
Fixpoint MatchAll (m : Matcher) (n : Node) : list Node :=
  (if Match m n then [n] else []) ++
  (fix go (l : list Node) : list Node :=
     match l with
     | [] => []
     | c :: l' => MatchAll m c ++ go l'
     end) (Children n).

(** [Selection.Find]: the matching descendants of each node; only element
    children are entered. *)
Definition Find (selector : string) (s : Selection) : Selection :=
  flat_map (fun n =>
    flat_map (fun c => if isElement c then MatchAll (compileMatcher selector) c else [])
             (Children n)) s.

(** [Selection.Text]: the text nodes below (and in) the selection,
    concatenated in document order. *)
Fixpoint nodeText (n : Node) : string :=
  (if isText n then Data n else EmptyString) +:+
  (fix go (l : list Node) : string :=
     match l with
     | [] => EmptyString
     | c :: l' => nodeText c +:+ go l'
     end) (Children n).

Definition Text (s : Selection) : string :=
  foldr (fun n acc => nodeText n +:+ acc) EmptyString s.

(** [getAttributePtr]: the first attribute with the key. *)
Fixpoint getAttributeValue (attrName : string) (l : list Attribute) : option string :=
  match l with
  | [] => None
  | a :: l' => if String.eqb (Key a) attrName then Some (Val a) else getAttributeValue attrName l'
  end.

(** [Selection.Attr]: the attribute of the first node; absent on an empty
    selection. *)
Definition Attr_ (attrName : string) (s : Selection) : option string :=
  match s with
  | [] => None
  | n :: _ => getAttributeValue attrName (Attr n)
  end.

End goquery.

Import goquery.

(** ** Machine integers

    The counters are Go [int]s, 64 bits wide on the platforms the tool is
    built for; [++] wraps around. *)

Definition int_wrap (x : Z) : Z := (x + 2 ^ 63) mod 2 ^ 64 - 2 ^ 63.

Definition incr (x : Z) : Z := int_wrap (x + 1).

Definition max_int : Z := 2 ^ 63 - 1.

(** ** Globals and the classification of an action text *)

Definition communityPrefix : string := "https://github.com/beyondstorage/".

(** The four global counters. *)
Record Counters : Set :=
  { issueOpen : Z; issueClose : Z; prOpen : Z; prClose : Z }.

Definition zeroCounters : Counters :=
  {| issueOpen := 0; issueClose := 0; prOpen := 0; prClose := 0 |}.

Definition regClosePR (s : string) : bool :=
  Str.contains "merged pull request" s || Str.contains "closed pull request" s.
Definition regOpenPR (s : string) : bool := Str.contains "opened pull request" s.
Definition regOpenIssue (s : string) : bool := Str.contains "opened issue" s.
Definition regCloseIssue (s : string) : bool := Str.contains "closed issue" s.

Definition count (content : string) (c : Counters) : Counters :=
  if regOpenPR content then
    {| issueOpen := issueOpen c; issueClose := issueClose c;
       prOpen := incr (prOpen c); prClose := prClose c |}
  else if regClosePR content then
    {| issueOpen := issueOpen c; issueClose := issueClose c;
       prOpen := prOpen c; prClose := incr (prClose c) |}
  else if regOpenIssue content then
    {| issueOpen := incr (issueOpen c); issueClose := issueClose c;
       prOpen := prOpen c; prClose := prClose c |}
  else if regCloseIssue content then
    {| issueOpen := issueOpen c; issueClose := incr (issueClose c);
       prOpen := prOpen c; prClose := prClose c |}
  else c.

Definition isBot (name : string) : bool :=
  String.eqb name "@dependabot" || String.eqb name "@BeyondRobot".

(** ** The traversal of [generateReport] *)

(** The variables the two callbacks close over, with the global counters
    and the lines handed to [log.Println] (without the logger's time stamp). *)
Record Vars : Type :=
  { userDict : gmap string string;
    headerContentDict : gmap string (list string);
    headers : list string;
    stats : Counters;
    logged : list string }.

Definition initVars : Vars :=
  {| userDict := ∅; headerContentDict := ∅; headers := [];
     stats := zeroCounters; logged := [] |}.

Definition setUser (user link : string) (v : Vars) : Vars :=
  {| userDict := <[user := link]> (userDict v);
     headerContentDict := headerContentDict v; headers := headers v;
     stats := stats v; logged := logged v |}.

Definition setContent (header : string) (l : list string) (v : Vars) : Vars :=
  {| userDict := userDict v;
     headerContentDict := <[header := l]> (headerContentDict v); headers := headers v;
     stats := stats v; logged := logged v |}.

Definition pushHeader (header : string) (v : Vars) : Vars :=
  {| userDict := userDict v;
     headerContentDict := headerContentDict v; headers := headers v ++ [header];
     stats := stats v; logged := logged v |}.

Definition setStats (c : Counters) (v : Vars) : Vars :=
  {| userDict := userDict v;
     headerContentDict := headerContentDict v; headers := headers v;
     stats := c; logged := logged v |}.

Definition Println (msg text : string) (v : Vars) : Vars :=
  {| userDict := userDict v;
     headerContentDict := headerContentDict v; headers := headers v;
     stats := stats v; logged := logged v ++ [msg +:+ " " +:+ text] |}.

(** The run-time panics of the traversal. *)
Inductive Panic : Set :=
| NilDereference
| IndexOutOfRange (index : Z) (len : nat).

Inductive Run (A : Type) : Type :=
| Returns (a : A)
| Panics (p : Panic).
Arguments Returns {A} a.
Arguments Panics {A} p.

(** [Selection.Each]: the callback on each node in turn; a panic of the
    callback ends the walk. *)
Fixpoint Each (f : Node → Vars → Run Vars) (s : Selection) (v : Vars) : Run Vars :=
  match s with
  | [] => Returns v
  | n :: s' =>
      match f n v with
      | Returns v' => Each f s' v'
      | Panics p => Panics p
      end
  end.

(** The sibling walk [for ; t.Type != html.TextNode; t = t.NextSibling]
    from a first child: the first text node of the list, [None] when the
    walk reaches nil (and dereferences it). *)
Definition firstTextNode (siblings : list Node) : option Node :=
  List.find isText siblings.

(** [fmt.Sprintf("[%s]%s[%s](%s)", ...)]. *)
Definition entryLine (user userText issueText issueLink : string) : string :=
  "[" +:+ user +:+ "]" +:+ userText +:+ "[" +:+ issueText +:+ "](" +:+ issueLink +:+ ")".

(** The issue node of a list item (line 155). *)
Definition issueNodeOf (liNode : Node) : Selection :=
  ChildrenFiltered "a" (ChildrenOf [liNode]).

(** Lines 151 to 173: from the counter update to the appended entry. *)
Definition liRest (liNode : Node) (user userText : string) (v : Vars) : Run Vars :=
  let v := setStats (count userText (stats v)) v in
  let issueNode := issueNodeOf liNode in
  match issueNode with
  | [] => Panics (IndexOutOfRange 0 0)
  | n0 :: _ =>
      match firstTextNode (Children n0) with
      | None => Panics NilDereference
      | Some issueText =>
          match Attr_ "href" issueNode with
          | None => Returns (Println "get href from issue failed, text:" (Text issueNode) v)
          | Some issueLink =>
              match last (headers v) with
              | None => Panics (IndexOutOfRange (-1) 0)
              | Some header =>
                  let list := default [] (headerContentDict v !! header) in
                  Returns (setContent header
                             (list ++ [entryLine user userText (Data issueText) issueLink]) v)
              end
          end
      end
  end.

(** The callback on a list item (lines 126 to 174). *)
Definition liEach (liNode : Node) (v : Vars) : Run Vars :=
  let userNode := ChildrenFiltered "a.user-mention" [liNode] in
  if isBot (Text userNode) then Returns v
  else
    match firstTextNode (Children liNode) with
    | None => Panics NilDereference
    | Some userText =>
        match userDict v !! Text userNode with
        | Some _ => liRest liNode (Text userNode) (Data userText) v
        | None =>
            match Attr_ "href" userNode with
            | None => Returns (Println "get href from user failed, text:" (Text userNode) v)
            | Some userLink =>
                liRest liNode (Text userNode) (Data userText)
                       (setUser (Text userNode) userLink v)
            end
        end
    end.

(** The callback on a child of the report element (lines 109 to 176). *)
Definition childEach (s : Node) (v : Vars) : Run Vars :=
  if Is "h2" [s] then
    let aNode := ChildrenFiltered "a" [s] in
    Returns (setContent (Text aNode) [] (pushHeader (Text aNode) v))
  else if Is "ul" [s] then Each liEach (ChildrenFiltered "li" [s]) v
  else Returns v.

(** The children the traversal visits. *)
Definition reportChildren (doc : Node) : Selection :=
  ChildrenOf (Find "td.comment-body" [doc]).

Definition traverse (doc : Node) : Run Vars :=
  Each childEach (reportChildren doc) initVars.

(** ** The output *)

Definition nl : string := String (Ascii.ascii_of_nat 10) EmptyString.

(** [%d] of a counter. *)
Definition fmt_d (x : Z) : string := pretty x.

(** The statistics block (lines 180 to 187), one write. *)
Definition statsBlock (c : Counters) : string :=
  nl +:+ "## Weekly Stats" +:+ nl +:+ nl +:+
  "| | Opened this week | Closed this week |" +:+ nl +:+
  "| ---- | ---- | ---- |" +:+ nl +:+
  "| Issues | " +:+ fmt_d (issueOpen c) +:+ " | " +:+ fmt_d (issueClose c) +:+ " |" +:+ nl +:+
  "| PR's | " +:+ fmt_d (prOpen c) +:+ " | " +:+ fmt_d (prClose c) +:+ " |" +:+ nl.

Definition headingLine (header : string) : string :=
  "## [" +:+ header +:+ "](" +:+ communityPrefix +:+ header +:+ ")" +:+ nl.

Definition contentLine (content : string) : string := "- " +:+ content +:+ nl.

Definition userLine (user link : string) : string := "[" +:+ user +:+ "]: " +:+ link +:+ nl.

(** The contents of a header; a missing key reads as the nil slice. *)
Definition contentsOf (v : Vars) (header : string) : list string :=
  default [] (headerContentDict v !! header).

(** One turn of the loop over [headers] (lines 192 to 205): the writes it
    makes. *)
Definition writeHeader (v : Vars) (header : string) : list string :=
  if (length (contentsOf v header) =? 0)%nat then []
  else [headingLine header; nl] ++ map contentLine (contentsOf v header) ++ [nl].

(** The writes of lines 180 to 212, in order, one string per [Fprintf];
    [users] is the order in which [range userDict] yields the entries. *)
Definition writeReport (v : Vars) (users : list (string * string)) : list string :=
  [statsBlock (stats v); nl] ++ flat_map (writeHeader v) (headers v) ++ [nl] ++
  map (fun e => userLine e.1 e.2) users.

(** ** The whole run *)

(** What the collaborators answer before the traversal starts. *)
Inductive Acquired : Set :=
| CreateFailed (output err : string)
| GetFailed (err : string)
| StatusNot200 (code : Z) (status : string)
| OpenFailed (err : string)
| ParseFailed (err : string)
| Parsed (doc : Node).

(** How the process ends: normally with what it wrote, by [log.Fatal]
    (exit status 1 after the message), or by an unrecovered panic. *)
Inductive Exit : Set :=
| Written (out : list string)
| Fatal (msg : string)
| Crashed (p : Panic).

(** [range] over a map yields every entry once, in an order that is not
    fixed. *)
Definition rangeOrder (m : gmap string string) (users : list (string * string)) : Prop :=
  users ≡ₚ map_to_list m.

Inductive generateReport : Acquired → Exit → Prop :=
| gr_create output err :
    generateReport (CreateFailed output err)
      (Fatal ("create output file <" +:+ output +:+ "> failed: [" +:+ err +:+ "]"))
| gr_get err : generateReport (GetFailed err) (Fatal err)
| gr_status code status :
    generateReport (StatusNot200 code status)
      (Fatal ("status code error: " +:+ fmt_d code +:+ " " +:+ status))
| gr_open err : generateReport (OpenFailed err) (Fatal err)
| gr_parse err : generateReport (ParseFailed err) (Fatal err)
| gr_panic doc p :
    traverse doc = Panics p → generateReport (Parsed doc) (Crashed p)
| gr_written doc v users :
    traverse doc = Returns v → rangeOrder (userDict v) users →
    generateReport (Parsed doc) (Written (writeReport v users)).

(** ** Sample documents *)

Module Sample.

Definition text (s : string) : Node :=
  {| Type_ := TextNode; Data := s; Attr := []; Children := [] |}.

Definition elem (tag : string) (attrs : list Attribute) (cs : list Node) : Node :=
  {| Type_ := ElementNode; Data := tag; Attr := attrs; Children := cs |}.

Definition href (url : string) : Attribute := {| Key := "href"; Val := url |}.
Definition class (k : string) : Attribute := {| Key := "class"; Val := k |}.

(** A page with one report cell holding [cs]. *)
Definition page (cs : list Node) : Node :=
  {| Type_ := DocumentNode; Data := ""; Attr := [];
     Children :=
       [elem "html" []
          [elem "head" [] [];
           elem "body" []
             [elem "table" []
                [elem "tbody" []
                   [elem "tr" [] [elem "td" [class "d-block comment-body markdown-body"] cs]]]]]] |}.

Definition h2 (name : string) : Node :=
  elem "h2" [] [elem "a" [href ("https://github.com/beyondstorage/" +:+ name)] [text name]].

Definition mention (user : string) : Node :=
  elem "a" [class "user-mention"; href ("https://github.com/" +:+ user)] [text user].

(** [<li><a class="user-mention" ..>user</a> action <span><a href=link>title</a></span></li>] *)
Definition li (user action title link : string) : Node :=
  elem "li" []
    [mention user; text action; elem "span" [] [elem "a" [href link] [text title]]].

Definition ul (items : list Node) : Node := elem "ul" [] items.

End Sample.

(** ** The classification table of the specification

    Section 4.1, step 3 of the specification, as a priority list of rules
    (the patterns of a rule, the counter it increments), read top to
    bottom; the first rule with a pattern occurring in the text wins. *)

Module SpecTable.

Inductive Counter : Set := PrsOpened | PrsClosed | IssuesOpened | IssuesClosed.

Definition rules : list (list string * Counter) :=
  [ (["opened pull request"], PrsOpened);
    (["merged pull request"; "closed pull request"], PrsClosed);
    (["opened issue"], IssuesOpened);
    (["closed issue"], IssuesClosed) ].

Fixpoint firstMatch (rs : list (list string * Counter)) (text : string) : option Counter :=
  match rs with
  | [] => None
  | (pats, k) :: rs' =>
      if existsb (fun p => Str.contains p text) pats then Some k else firstMatch rs' text
  end.

Definition classify (text : string) : option Counter := firstMatch rules text.

Definition get (k : Counter) (c : Counters) : Z :=
  match k with
  | PrsOpened => prOpen c
  | PrsClosed => prClose c
  | IssuesOpened => issueOpen c
  | IssuesClosed => issueClose c
  end.

(** The effect of a rule: its counter is incremented (as a Go [int]). *)
Definition bump (k : Counter) (c : Counters) : Counters :=
  match k with
  | PrsOpened =>
      {| issueOpen := issueOpen c; issueClose := issueClose c;
         prOpen := incr (prOpen c); prClose := prClose c |}
  | PrsClosed =>
      {| issueOpen := issueOpen c; issueClose := issueClose c;
         prOpen := prOpen c; prClose := incr (prClose c) |}
  | IssuesOpened =>
      {| issueOpen := incr (issueOpen c); issueClose := issueClose c;
         prOpen := prOpen c; prClose := prClose c |}
  | IssuesClosed =>
      {| issueOpen := issueOpen c; issueClose := incr (issueClose c);
         prOpen := prOpen c; prClose := prClose c |}
  end.

End SpecTable.

(** ** Derived notions *)

(** The sum of the four counters. *)
Definition total (c : Counters) : Z :=
  issueOpen c + issueClose c + prOpen c + prClose c.

Definition nonneg (c : Counters) : Prop :=
  0 ≤ issueOpen c ∧ 0 ≤ issueClose c ∧ 0 ≤ prOpen c ∧ 0 ≤ prClose c.

(** The text matches one of the four patterns. *)
Definition classified (text : string) : bool :=
  regOpenPR text || regClosePR text || regOpenIssue text || regCloseIssue text.

(** The user node of a list item (line 128) and its handle. *)
Definition userNodeOf (liNode : Node) : Selection :=
  ChildrenFiltered "a.user-mention" [liNode].

Definition handleOf (liNode : Node) : string := Text (userNodeOf liNode).

(** The user link is at hand at line 142: the handle is registered
    already, or the user node carries an [href]. *)
Definition userLinkKnown (liNode : Node) (v : Vars) : Prop :=
  is_Some (userDict v !! handleOf liNode) ∨ is_Some (Attr_ "href" (userNodeOf liNode)).

(** The variables at line 151 of a list item that reached it. *)
Definition withUser (liNode : Node) (v : Vars) : Vars :=
  match userDict v !! handleOf liNode with
  | Some _ => v
  | None =>
      match Attr_ "href" (userNodeOf liNode) with
      | Some userLink => setUser (handleOf liNode) userLink v
      | None => v
      end
  end.

(** A list item every extraction of which succeeds. *)
Definition extractable (liNode : Node) : Prop :=
  isBot (handleOf liNode) = false ∧
  is_Some (firstTextNode (Children liNode)) ∧
  is_Some (Attr_ "href" (userNodeOf liNode)) ∧
  (∃ n0 rest, issueNodeOf liNode = n0 :: rest ∧ is_Some (firstTextNode (Children n0))) ∧
  is_Some (Attr_ "href" (issueNodeOf liNode)).

(** An entry was built at line 172 from a handle that is no bot and is
    registered. *)
Definition entryOf (v : Vars) (e : string) : Prop :=
  ∃ user userText issueText issueLink,
    e = entryLine user userText issueText issueLink ∧
    isBot user = false ∧ is_Some (userDict v !! user).

(** What every call of the two callbacks keeps. *)
Definition registryInv (v : Vars) : Prop :=
  (∀ name, isBot name = true → userDict v !! name = None) ∧
  (∀ header l e, headerContentDict v !! header = Some l → e ∈ l → entryOf v e).

Definition isHeading (s : Node) : bool := Is "h2" [s].

(** The name line 118 appends for a heading. *)
Definition headingName (s : Node) : string := Text (ChildrenFiltered "a" [s]).

(** The list items the traversal visits below a child of the report. *)
Definition listItemsOf (s : Node) : Selection :=
  if Is "ul" [s] then ChildrenFiltered "li" [s] else [].

Definition listItems (doc : Node) : list Node :=
  flat_map listItemsOf (reportChildren doc).

(** A list item that is no bot's and whose action text matches one of the
    four patterns. *)
Definition counted (liNode : Node) : bool :=
  negb (isBot (handleOf liNode)) &&
  match firstTextNode (Children liNode) with
  | Some userText => classified (Data userText)
  | None => false
  end.

Definition countedIn (items : list Node) : Z :=
  Z.of_nat (length (List.filter counted items)).

Definition present {A : Type} (o : option A) : bool :=
  match o with Some _ => true | None => false end.

(** A well-formed list item is a bot's, or has an action text, a user
    mention with a link and an issue anchor with a text, and stands below
    a heading ([opened]). *)
Definition wfItem (opened : bool) (liNode : Node) : bool :=
  isBot (handleOf liNode) ||
  (present (firstTextNode (Children liNode)) &&
   present (Attr_ "href" (userNodeOf liNode)) &&
   match issueNodeOf liNode with
   | n0 :: _ => present (firstTextNode (Children n0))
   | [] => false
   end &&
   opened).

Fixpoint wfChildren (opened : bool) (cs : list Node) : bool :=
  match cs with
  | [] => true
  | s :: cs' =>
      if Is "h2" [s] then wfChildren true cs'
      else forallb (wfItem opened) (listItemsOf s) && wfChildren opened cs'
  end.

(** A well-formed document: every list item of the report is well formed. *)
Definition wellFormed (doc : Node) : bool := wfChildren false (reportChildren doc).

(** The first byte of a write; the four kinds of writes differ in it. *)
Definition firstByte (s : string) : option ascii :=
  match s with
  | EmptyString => None
  | String c _ => Some c
  end.

(** The writes for a section that has entries. *)
Definition sectionBlock (v : Vars) (header : string) : list string :=
  [headingLine header; nl] ++ map contentLine (contentsOf v header) ++ [nl].

Definition hasEntries (v : Vars) (header : string) : bool :=
  negb (length (contentsOf v header) =? 0)%nat.

(** How often a line was written. *)
Definition timesWritten (line : string) (out : list string) : nat :=
  count_occ string_dec out line.

(** ** Sample documents and the variables their traversal ends with *)

(** Scenario A of the specification. *)
Definition scenarioA : Node :=
  Sample.page [Sample.h2 "go-storage";
               Sample.ul [Sample.li "@alice" "opened issue" "Bug X" "http://x"]].

Definition scenarioAVars : Vars :=
  {| userDict := {[ "@alice" := "https://github.com/@alice" ]};
     headerContentDict := {[ "go-storage" := ["[@alice]opened issue[Bug X](http://x)"] ]};
     headers := ["go-storage"];
     stats := {| issueOpen := 1; issueClose := 0; prOpen := 0; prClose := 0 |};
     logged := [] |}.

(** Scenario B of the specification: an item of "@dependabot". *)
Definition botItem : Node :=
  Sample.li "@dependabot" " opened pull request " "Bump x" "http://x".

Definition botDoc : Node :=
  Sample.page [Sample.h2 "go-storage"; Sample.ul [botItem]].

(** Scenario E of the specification, with a classified action text: the
    issue anchor has no [href]. *)
Definition noIssueLinkItem : Node :=
  Sample.elem "li" []
    [Sample.mention "@alice"; Sample.text " closed issue ";
     Sample.elem "span" [] [Sample.elem "a" [] [Sample.text "Bug X"]]].

(** A list item without a text node among its children. *)
Definition noTextItem : Node :=
  Sample.elem "li" []
    [Sample.mention "@alice";
     Sample.elem "span" [] [Sample.elem "a" [Sample.href "http://x"] [Sample.text "Bug X"]]].

(** A list item without an anchor below its element children. *)
Definition noAnchorItem : Node :=
  Sample.elem "li" [] [Sample.mention "@alice"; Sample.text " opened issue "].

(** A list item whose issue anchor has no children. *)
Definition emptyAnchorItem : Node :=
  Sample.elem "li" []
    [Sample.mention "@alice"; Sample.text " opened issue ";
     Sample.elem "span" [] [Sample.elem "a" [Sample.href "http://x"] []]].

Definition underHeading (item : Node) : Node :=
  Sample.page [Sample.h2 "go-storage"; Sample.ul [item]].

(** A heading without an anchor, followed by a list. *)
Definition bareHeadingDoc : Node :=
  Sample.page [Sample.elem "h2" [] [Sample.text "Misc"];
               Sample.ul [Sample.li "@alice" " opened issue " "Bug X" "http://x"]].

Definition bareHeadingVars : Vars :=
  {| userDict := {[ "@alice" := "https://github.com/@alice" ]};
     headerContentDict := {[ "" := ["[@alice] opened issue [Bug X](http://x)"] ]};
     headers := [""];
     stats := {| issueOpen := 1; issueClose := 0; prOpen := 0; prClose := 0 |};
     logged := [] |}.

(** A list with an extractable item of "@alice" ahead of the only heading. *)
Definition listFirstDoc : Node :=
  Sample.page [Sample.ul [Sample.li "@alice" " opened issue " "Bug X" "http://x"];
               Sample.h2 "go-storage"].

(** The heading "go-storage" twice, a list after each. *)
Definition dupDoc : Node :=
  Sample.page [Sample.h2 "go-storage";
               Sample.ul [Sample.li "@alice" " opened issue " "Bug X" "http://x"];
               Sample.h2 "go-storage";
               Sample.ul [Sample.li "@bob" " closed issue " "Bug Y" "http://y"]].

Definition dupVars : Vars :=
  {| userDict := {[ "@alice" := "https://github.com/@alice";
                    "@bob" := "https://github.com/@bob" ]};
     headerContentDict := {[ "go-storage" := ["[@bob] closed issue [Bug Y](http://y)"] ]};
     headers := ["go-storage"; "go-storage"];
     stats := {| issueOpen := 1; issueClose := 1; prOpen := 0; prClose := 0 |};
     logged := [] |}.

(** ** Acquisition (lines 53 to 91)

    The calls [generateReport] makes before the traversal, against what
    the operating system, the network and the parser answer. *)

(** The answers of the collaborators: an error of [os.Create]; the error
    or the response (status code, status line, body) of [http.Get]; the
    error or the contents of [os.Open]; the error or the document of
    [goquery.NewDocumentFromReader]. *)
Record World : Type :=
  { osCreate : string → option string;
    httpGet : string → string + (Z * string * string);
    osOpen : string → string + string;
    NewDocumentFromReader : string → string + Node }.

Definition load (w : World) (body : string) : Acquired :=
  match NewDocumentFromReader w body with
  | inl err => ParseFailed err
  | inr doc => Parsed doc
  end.

Definition acquire (w : World) (input output : string) : Acquired :=
  match (if String.eqb output "" then None else osCreate w output) with
  | Some err => CreateFailed output err
  | None =>
      if Str.has_prefix "http://" input || Str.has_prefix "https://" input then
        match httpGet w input with
        | inl err => GetFailed err
        | inr (code, status, body) =>
            if code =? 200 then load w body else StatusNot200 code status
        end
      else
        match osOpen w input with
        | inl err => OpenFailed err
        | inr body => load w body
        end
  end.

(** [generateReport(input, output)] in a world. *)
Definition runReport (w : World) (input output : string) (e : Exit) : Prop :=
  generateReport (acquire w input output) e.

(** The world with other answers of [os.Open], of [http.Get]. *)
Definition withOpen (f : string → string + string) (w : World) : World :=
  {| osCreate := osCreate w; httpGet := httpGet w; osOpen := f;
     NewDocumentFromReader := NewDocumentFromReader w |}.

Definition withGet (f : string → string + (Z * string * string)) (w : World) : World :=
  {| osCreate := osCreate w; httpGet := f; osOpen := osOpen w;
     NewDocumentFromReader := NewDocumentFromReader w |}.

(** ** Further notions of the traversal *)

(** The entry a list item adds at line 172, if it gets there. *)
Definition entryFor (liNode : Node) : list string :=
  if isBot (handleOf liNode) then []
  else
    match firstTextNode (Children liNode), issueNodeOf liNode with
    | Some userText, n0 :: _ =>
        match firstTextNode (Children n0), Attr_ "href" (issueNodeOf liNode) with
        | Some issueText, Some issueLink =>
            [entryLine (handleOf liNode) (Data userText) (Data issueText) issueLink]
        | _, _ => []
        end
    | _, _ => []
    end.

(** The children of the report the traversal acts on. *)
Definition relevant (s : Node) : bool := Is "h2" [s] || Is "ul" [s].

Definition notBot (liNode : Node) : bool := negb (isBot (handleOf liNode)).

(** The panics the traversal can end in. *)
Definition knownPanic (p : Panic) : Prop :=
  p = NilDereference ∨ p = IndexOutOfRange 0 0 ∨ p = IndexOutOfRange (-1) 0.

(** A page without a report cell. *)
Definition noCellDoc : Node :=
  {| Type_ := DocumentNode; Data := ""; Attr := [];
     Children := [Sample.elem "html" [] [Sample.elem "body" [] [Sample.h2 "go-storage"]]] |}.

(** A heading, a paragraph, and a list of a bot's item and an item of
    "@alice". *)
Definition mixedDoc : Node :=
  Sample.page [Sample.h2 "go-storage"; Sample.elem "p" [] [Sample.text "note"];
               Sample.ul [botItem; Sample.li "@alice" " opened issue " "Bug X" "http://x"]].

(** A world in which every file exists and is empty, every fetch answers
    404 and every body parses to [scenarioA]. *)
Definition sampleWorld : World :=
  {| osCreate := λ _, None;
     httpGet := λ _, inr (404, "404 Not Found", "");
     osOpen := λ _, inr "";
     NewDocumentFromReader := λ _, inr scenarioA |}.

(** A list with a second item of "@alice", another link in its mention,
    and the variables after it when it follows [scenarioA]. *)
Definition aliceAgainItem : Node :=
  Sample.elem "li" []
    [Sample.elem "a" [Sample.class "user-mention"; Sample.href "http://other"]
       [Sample.text "@alice"];
     Sample.text " closed issue ";
     Sample.elem "span" [] [Sample.elem "a" [Sample.href "http://y"] [Sample.text "Bug Y"]]].

Definition aliceAgainVars : Vars :=
  {| userDict := {[ "@alice" := "https://github.com/@alice" ]};
     headerContentDict :=
       {[ "go-storage" := ["[@alice]opened issue[Bug X](http://x)";
                           "[@alice] closed issue [Bug Y](http://y)"] ]};
     headers := ["go-storage"];
     stats := {| issueOpen := 1; issueClose := 1; prOpen := 0; prClose := 0 |};
     logged := [] |}.

(** A list item of "@carol" whose user mention has no [href]. *)
Definition noUserLinkItem : Node :=
  Sample.elem "li" []
    [Sample.elem "a" [Sample.class "user-mention"] [Sample.text "@carol"];
     Sample.text " opened issue ";
     Sample.elem "span" [] [Sample.elem "a" [Sample.href "http://z"] [Sample.text "Bug Z"]]].



(** A list item with a matching action text whose user mention and issue
    anchor both have no [href]. *)
Definition noLinksItem : Node :=
  Sample.elem "li" []
    [Sample.elem "a" [Sample.class "user-mention"] [Sample.text "@carol"];
     Sample.text " opened issue ";
     Sample.elem "span" [] [Sample.elem "a" [] [Sample.text "Bug Z"]]].

(** A list item with a matching action text whose issue anchor has no
    [href] and no text. *)
Definition bareAnchorItem : Node :=
  Sample.elem "li" []
    [Sample.mention "@alice"; Sample.text " opened issue ";
     Sample.elem "span" [] [Sample.elem "a" [] []]].


Definition scenarioAHeading : Vars :=
  setContent "go-storage" [] (pushHeader "go-storage" initVars).

(** * Properties *)

(** ** Counters *)

Lemma int_wrap_id (x : Z) : - 2 ^ 63 ≤ x < 2 ^ 63 → int_wrap x = x.
Proof.
  intros Hx. unfold int_wrap.
  rewrite Z.mod_small by lia. lia.
Qed.

Lemma incr_small (x : Z) : - 2 ^ 63 ≤ x < max_int → incr x = x + 1.
Proof. unfold incr, max_int. intros Hx. apply int_wrap_id. lia. Qed.

Lemma incr_changes (x : Z) : incr x ≠ x.
Proof.
  unfold incr, int_wrap. intros H.
  pose proof (Z.mod_eq (x + 1 + 2 ^ 63) (2 ^ 64) ltac:(lia)) as Hm.
  assert (Hd : 2 ^ 64 * ((x + 1 + 2 ^ 63) `div` 2 ^ 64) = 1) by lia.
  lia.
Qed.

Lemma classify_None (text : string) :
  SpecTable.classify text = None ↔ classified text = false.
Proof.
  unfold SpecTable.classify, classified, regOpenPR, regClosePR, regOpenIssue, regCloseIssue.
  simpl.
  destruct (Str.contains "opened pull request" text),
           (Str.contains "merged pull request" text),
           (Str.contains "closed pull request" text),
           (Str.contains "opened issue" text),
           (Str.contains "closed issue" text); simpl; split; congruence.
Qed.

(** What [count] does, against the table: the counter of the first
    matching rule goes through [++], every other counter keeps its value. *)
Lemma count_table (text : string) (c : Counters) :
  match SpecTable.classify text with
  | Some k =>
      SpecTable.get k (count text c) = incr (SpecTable.get k c) ∧
      ∀ k', k' ≠ k → SpecTable.get k' (count text c) = SpecTable.get k' c
  | None => count text c = c
  end.
Proof.
  unfold SpecTable.classify, count, regOpenPR, regClosePR, regOpenIssue, regCloseIssue.
  simpl.
  destruct (Str.contains "opened pull request" text); simpl;
    [ split; [done | by intros []] |].
  destruct (Str.contains "merged pull request" text); simpl;
    [ split; [done | by intros []] |].
  destruct (Str.contains "closed pull request" text); simpl;
    [ split; [done | by intros []] |].
  destruct (Str.contains "opened issue" text); simpl;
    [ split; [done | by intros []] |].
  destruct (Str.contains "closed issue" text); simpl;
    [ split; [done | by intros []] | done ].
Qed.

Lemma count_unclassified (text : string) (c : Counters) :
  classified text = false → count text c = c.
Proof.
  intros H. apply classify_None in H.
  pose proof (count_table text c) as Ht. by rewrite H in Ht.
Qed.

Lemma count_classified_changes (text : string) (c : Counters) :
  classified text = true → count text c ≠ c.
Proof.
  intros H Heq.
  pose proof (count_table text c) as Ht.
  destruct (SpecTable.classify text) as [k|] eqn:Hk.
  - destruct Ht as [Hi _]. rewrite Heq in Hi. symmetry in Hi. by apply incr_changes in Hi.
  - apply classify_None in Hk. congruence.
Qed.

(** The counters stay non-negative and their sum grows by one per
    classified text, as long as the sum stays below the largest [int]. *)
Lemma count_total (text : string) (c : Counters) :
  nonneg c → total c < max_int →
  nonneg (count text c) ∧
  total (count text c) = total c + (if classified text then 1 else 0).
Proof.
  intros (H1 & H2 & H3 & H4) Hlt. unfold total in *.
  unfold count, classified, nonneg.
  destruct (regOpenPR text); simpl;
    [ rewrite incr_small by (unfold max_int in *; lia); lia |].
  destruct (regClosePR text); simpl;
    [ rewrite incr_small by (unfold max_int in *; lia); lia |].
  destruct (regOpenIssue text); simpl;
    [ rewrite incr_small by (unfold max_int in *; lia); lia |].
  destruct (regCloseIssue text); simpl;
    [ rewrite incr_small by (unfold max_int in *; lia); lia | lia ].
Qed.

(** C5. [count] tests the patterns in the order of the table, "opened pull
    request" first, then "merged pull request" or "closed pull request",
    then "opened issue", then "closed issue": it applies the effect of the
    first rule that matches, which changes that counter (by one when it is
    below the largest [int]) and no other, and changes nothing when no rule
    matches. The text "merged pull request" increments [prClose] and leaves
    [prOpen] as it is. *)
Theorem count_first_match_wins (text : string) (c : Counters) :
  count text c =
    match SpecTable.classify text with
    | Some k => SpecTable.bump k c
    | None => c
    end ∧
  (∀ k, SpecTable.classify text = Some k →
     SpecTable.get k (count text c) ≠ SpecTable.get k c ∧
     (- 2 ^ 63 ≤ SpecTable.get k c < max_int →
      SpecTable.get k (count text c) = SpecTable.get k c + 1) ∧
     ∀ k', k' ≠ k → SpecTable.get k' (count text c) = SpecTable.get k' c) ∧
  (SpecTable.classify text = None → count text c = c) ∧
  SpecTable.classify "merged pull request" = Some SpecTable.PrsClosed ∧
  prClose (count "merged pull request" c) = incr (prClose c) ∧
  prOpen (count "merged pull request" c) = prOpen c.
Proof.
  split; [| split; [| split; [| split; [| split]]]].
  - unfold SpecTable.classify, count, regOpenPR, regClosePR, regOpenIssue, regCloseIssue.
    simpl.
    destruct (Str.contains "opened pull request" text); [done |].
    destruct (Str.contains "merged pull request" text); [done |].
    destruct (Str.contains "closed pull request" text); [done |].
    destruct (Str.contains "opened issue" text); [done |].
    by destruct (Str.contains "closed issue" text).
  - intros k Hk. pose proof (count_table text c) as Ht. rewrite Hk in Ht.
    destruct Ht as [Hi Ho]. split; [| split; [| done]].
    + rewrite Hi. apply incr_changes.
    + intros Hr. rewrite Hi. by apply incr_small.
  - intros Hk. pose proof (count_table text c) as Ht. by rewrite Hk in Ht.
  - reflexivity.
  - reflexivity.
  - reflexivity.
Qed.

Lemma count_first_match_wins_witness :
  prClose (count "merged pull request" zeroCounters) = 1 ∧
  prOpen (count "merged pull request" zeroCounters) = 0.
Proof.
  destruct (count_first_match_wins "merged pull request" zeroCounters)
    as (_ & Hk & _ & Hc & _ & Ho).
  destruct (Hk SpecTable.PrsClosed Hc) as (_ & Hone & _).
  split; [| exact Ho].
  apply Hone. simpl. unfold max_int. lia.
Defined.

(** A text with keywords of two rules goes to the earlier rule. *)
Example count_two_keywords (c : Counters) :
  count "closed issue by opened pull request" c = SpecTable.bump SpecTable.PrsOpened c ∧
  count "opened issue after closed pull request" c = SpecTable.bump SpecTable.PrsClosed c.
Proof. split; reflexivity. Qed.

(** ** The walk *)

Lemma Each_app (f : Node → Vars → Run Vars) (s1 s2 : Selection) (v : Vars) :
  Each f (s1 ++ s2) v =
    match Each f s1 v with
    | Returns v' => Each f s2 v'
    | Panics p => Panics p
    end.
Proof.
  revert v. induction s1 as [| n s1 IH]; intros v; simpl; [done |].
  destruct (f n v); [apply IH | done].
Qed.

(** A property of the variables that every call of the callback keeps is
    kept by the whole walk. *)
Lemma Each_preserves (P : Vars → Prop) (f : Node → Vars → Run Vars) (s : Selection) :
  (∀ n v v', n ∈ s → P v → f n v = Returns v' → P v') →
  ∀ v v', P v → Each f s v = Returns v' → P v'.
Proof.
  induction s as [| n s IH]; intros Hf v v' HP HE; simpl in HE.
  - by injection HE as <-.
  - destruct (f n v) as [v1 |] eqn:Hn; [| done].
    apply (IH (λ m w w' Hm, Hf m w w' (list_elem_of_further _ _ _ Hm)) v1 v'); [| done].
    apply (Hf n v v1); [left | done | done].
Qed.

(** ** One list item *)

(** From line 151 on: what a returning call leaves behind. *)
Lemma liRest_returns (liNode : Node) (user userText : string) (v v' : Vars) :
  liRest liNode user userText v = Returns v' →
  userDict v' = userDict v ∧ headers v' = headers v ∧
  stats v' = count userText (stats v) ∧
  (headerContentDict v' = headerContentDict v ∨
   ∃ header issueText issueLink,
     last (headers v) = Some header ∧
     headerContentDict v' =
       <[header := contentsOf v header ++ [entryLine user userText issueText issueLink]]>
         (headerContentDict v)).
Proof.
  unfold liRest. intros H.
  destruct (issueNodeOf liNode) as [| n0 rest]; [done |].
  destruct (firstTextNode (Children n0)) as [issueText |]; [| done].
  destruct (Attr_ "href" (n0 :: rest)) as [issueLink |].
  - simpl in H. destruct (last (headers v)) as [header |] eqn:Hl; [| done].
    injection H as <-. simpl. repeat split; try done.
    right. by exists header, (Data issueText), issueLink.
  - injection H as <-. simpl. repeat split; try done. by left.
Qed.

(** The callback on a list item, unfolded along its early returns. *)
Lemma liEach_unfold (liNode : Node) (v : Vars) :
  liEach liNode v =
    if isBot (handleOf liNode) then Returns v
    else match firstTextNode (Children liNode) with
         | None => Panics NilDereference
         | Some userText =>
             match userDict v !! handleOf liNode, Attr_ "href" (userNodeOf liNode) with
             | None, None =>
                 Returns (Println "get href from user failed, text:" (handleOf liNode) v)
             | _, _ => liRest liNode (handleOf liNode) (Data userText) (withUser liNode v)
             end
         end.
Proof.
  unfold liEach, withUser, handleOf, userNodeOf.
  destruct (isBot _); [done |].
  destruct (firstTextNode _); [| done].
  destruct (userDict v !! _); [done |].
  by destruct (Attr_ "href" _).
Qed.

Lemma withUser_known (liNode : Node) (v : Vars) :
  userLinkKnown liNode v → is_Some (userDict (withUser liNode v) !! handleOf liNode).
Proof.
  unfold userLinkKnown, withUser. intros [[l Hl] | [l Hl]].
  - rewrite Hl. by rewrite Hl.
  - destruct (userDict v !! handleOf liNode) eqn:Hd; [by rewrite Hd |].
    rewrite Hl. simpl. rewrite lookup_insert_eq. by eexists.
Qed.

Lemma withUser_fields (liNode : Node) (v : Vars) :
  headers (withUser liNode v) = headers v ∧
  headerContentDict (withUser liNode v) = headerContentDict v ∧
  stats (withUser liNode v) = stats v.
Proof.
  unfold withUser. destruct (userDict v !! _); [done |].
  by destruct (Attr_ "href" _).
Qed.

Lemma liEach_bot (liNode : Node) (v : Vars) :
  isBot (handleOf liNode) = true → liEach liNode v = Returns v.
Proof. intros H. rewrite liEach_unfold. by rewrite H. Qed.

(** A list item that reaches line 151 behaves as [liRest] from there. *)
Lemma liEach_reaches_rest (liNode userText : Node) (v : Vars) :
  isBot (handleOf liNode) = false →
  firstTextNode (Children liNode) = Some userText →
  userLinkKnown liNode v →
  liEach liNode v = liRest liNode (handleOf liNode) (Data userText) (withUser liNode v).
Proof.
  intros Hb Ht Hk. rewrite liEach_unfold, Hb, Ht.
  destruct (userDict v !! handleOf liNode) eqn:Hd; [done |].
  destruct (Attr_ "href" (userNodeOf liNode)) eqn:Ha; [done |].
  destruct Hk as [[? ?] | [? ?]]; congruence.
Qed.

Lemma isBot_spec (name : string) :
  isBot name = true ↔ name = "@dependabot" ∨ name = "@BeyondRobot".
Proof.
  unfold isBot. rewrite orb_true_iff, !String.eqb_eq. tauto.
Qed.

(** ** What every returning walk keeps *)

Lemma entryOf_mono (v v' : Vars) (e : string) :
  (∀ user, is_Some (userDict v !! user) → is_Some (userDict v' !! user)) →
  entryOf v e → entryOf v' e.
Proof.
  intros Hm (user & a & t & k & -> & Hb & Hu).
  exists user, a, t, k. auto.
Qed.

Lemma registryInv_init : registryInv initVars.
Proof.
  split; [intros; apply lookup_empty |].
  intros header l e H. simpl in H. by rewrite lookup_empty in H.
Qed.

Lemma withUser_inv (liNode : Node) (v : Vars) :
  isBot (handleOf liNode) = false → registryInv v → registryInv (withUser liNode v).
Proof.
  intros Hb [Hbots Hent]. unfold withUser.
  destruct (userDict v !! handleOf liNode) eqn:Hd; [done |].
  destruct (Attr_ "href" (userNodeOf liNode)) as [link |]; [| done].
  split; simpl.
  - intros name Hn. rewrite lookup_insert_ne; [by apply Hbots | congruence].
  - intros header l e Hl He. apply (entryOf_mono v); [| by eapply Hent].
    intros user Hu. simpl.
    destruct (decide (handleOf liNode = user)) as [-> | Hne].
    + rewrite lookup_insert_eq. by eexists.
    + by rewrite lookup_insert_ne.
Qed.

Lemma liEach_inv (liNode : Node) (v v' : Vars) :
  registryInv v → liEach liNode v = Returns v' → registryInv v'.
Proof.
  intros Hinv. rewrite liEach_unfold.
  destruct (isBot (handleOf liNode)) eqn:Hb; [by intros [= <-] |].
  destruct (firstTextNode (Children liNode)) as [userText |]; [| done].
  assert (Hrest : liRest liNode (handleOf liNode) (Data userText) (withUser liNode v)
                    = Returns v' →
                  is_Some (userDict (withUser liNode v) !! handleOf liNode) →
                  registryInv v').
  { intros Hr Hsome.
    pose proof (withUser_inv liNode v Hb Hinv) as [Hbots Hent].
    apply liRest_returns in Hr as (Hu & _ & _ & Hc).
    split.
    - intros name Hn. rewrite Hu. by apply Hbots.
    - intros header l e Hl He.
      destruct Hc as [Hc | (h & it & link & _ & Hc)]; rewrite Hc in Hl.
      + apply (entryOf_mono (withUser liNode v)); [| by eapply Hent].
        intros user. by rewrite Hu.
      + destruct (decide (h = header)) as [-> | Hne].
        * rewrite lookup_insert_eq in Hl. injection Hl as <-.
          apply elem_of_app in He as [He | He].
          -- apply (entryOf_mono (withUser liNode v)); [intros user; by rewrite Hu |].
             unfold contentsOf in He.
             destruct (headerContentDict (withUser liNode v) !! header) as [l0 |] eqn:Hl0;
               simpl in He; [by eapply Hent | by apply elem_of_nil in He].
          -- apply list_elem_of_singleton in He as ->.
             exists (handleOf liNode), (Data userText), it, link.
             split; [done |]. split; [done |]. by rewrite Hu.
        * rewrite lookup_insert_ne in Hl by done.
          apply (entryOf_mono (withUser liNode v)); [| by eapply Hent].
          intros user. by rewrite Hu. }
  destruct (userDict v !! handleOf liNode) as [l0 |] eqn:Hd.
  - intros Hr. apply Hrest; [done |]. apply withUser_known. left. by rewrite Hd.
  - destruct (Attr_ "href" (userNodeOf liNode)) as [link |] eqn:Ha.
    + intros Hr. apply Hrest; [done |]. apply withUser_known. right. by rewrite Ha.
    + intros [= <-]. exact Hinv.
Qed.

Lemma childEach_inv (s : Node) (v v' : Vars) :
  registryInv v → childEach s v = Returns v' → registryInv v'.
Proof.
  intros Hinv. unfold childEach.
  destruct (Is "h2" [s]).
  - generalize (Text (ChildrenFiltered "a" [s])). intros name [= <-].
    destruct Hinv as [Hbots Hent]. split; [done |].
    intros header l e Hl He. cbn [headerContentDict setContent pushHeader] in Hl.
    destruct (decide (name = header)) as [-> | Hne].
    + rewrite lookup_insert_eq in Hl. injection Hl as <-. by apply elem_of_nil in He.
    + rewrite lookup_insert_ne in Hl by done.
      apply (entryOf_mono v); [done | by eapply Hent].
  - destruct (Is "ul" [s]); [| by intros [= <-]].
    apply Each_preserves; [| done].
    intros n w w' _. apply liEach_inv.
Qed.

Lemma traverse_inv (doc : Node) (v : Vars) :
  traverse doc = Returns v → registryInv v.
Proof.
  unfold traverse. apply Each_preserves; [| apply registryInv_init].
  intros n w w' _. apply childEach_inv.
Qed.

(** ** How a run on a parsed document ends *)

Lemma generateReport_Parsed (doc : Node) (e : Exit) :
  generateReport (Parsed doc) e →
  (∃ p, traverse doc = Panics p ∧ e = Crashed p) ∨
  (∃ v users, traverse doc = Returns v ∧ rangeOrder (userDict v) users ∧
              e = Written (writeReport v users)).
Proof.
  inversion 1; subst; [left | right]; eauto 6.
Qed.

Lemma generateReport_crash (doc : Node) (p : Panic) (e : Exit) :
  traverse doc = Panics p → generateReport (Parsed doc) e → e = Crashed p.
Proof.
  intros Hp [(q & Hq & ->) | (v & users & Hv & _)]%generateReport_Parsed; congruence.
Qed.

(** C6. A list item whose handle is exactly "@dependabot" or "@BeyondRobot"
    is skipped entirely: its callback returns with every variable (the four
    counters, the user registry, the entry lists) as it found it. After any
    traversal that returns, no bot handle is a key of the user registry and
    every entry of every section was built from a handle that is no bot. *)
Theorem bot_items_skipped :
  (∀ name, isBot name = true ↔ name = "@dependabot" ∨ name = "@BeyondRobot") ∧
  (∀ liNode v, isBot (handleOf liNode) = true → liEach liNode v = Returns v) ∧
  (∀ doc v, traverse doc = Returns v →
     (∀ name, isBot name = true → userDict v !! name = None) ∧
     (∀ header l e, headerContentDict v !! header = Some l → e ∈ l →
        ∃ user userText issueText issueLink,
          e = entryLine user userText issueText issueLink ∧ isBot user = false)).
Proof.
  split; [exact isBot_spec |]. split; [exact liEach_bot |].
  intros doc v Hv. destruct (traverse_inv doc v Hv) as [Hbots Hent].
  split; [exact Hbots |].
  intros header l e Hl He.
  destruct (Hent header l e Hl He) as (user & a & t & k & -> & Hb & _).
  by exists user, a, t, k.
Qed.

(** The traversal of the sample documents. *)
Lemma traverse_botDoc :
  traverse botDoc = Returns (setContent "go-storage" [] (pushHeader "go-storage" initVars)).
Proof. vm_compute. reflexivity. Qed.

Lemma bot_items_skipped_witness :
  liEach botItem initVars = Returns initVars ∧
  ∃ v, traverse botDoc = Returns v ∧
       userDict v !! "@dependabot" = None ∧ stats v = zeroCounters ∧
       headerContentDict v !! "go-storage" = Some [].
Proof.
  destruct bot_items_skipped as (_ & Hitem & Hdoc).
  split; [apply Hitem; vm_compute; reflexivity |].
  exists (setContent "go-storage" [] (pushHeader "go-storage" initVars)).
  split; [exact traverse_botDoc |].
  split; [| split; vm_compute; reflexivity].
  eapply Hdoc; [exact traverse_botDoc | vm_compute; reflexivity].
Defined.

(** C9, amended. A list item that is no bot, whose action text matches a
    pattern, whose user link is at hand and whose issue node has a text but
    no [href], is skipped at line 167: no entry is appended to any section,
    while the counters are those [count] left at line 152, with the
    matching counter changed (the sum one higher, short of overflow). *)
Theorem issue_link_missing_still_counted
    (liNode userText n0 issueText : Node) (rest : list Node) (v : Vars) :
  isBot (handleOf liNode) = false →
  firstTextNode (Children liNode) = Some userText →
  classified (Data userText) = true →
  userLinkKnown liNode v →
  issueNodeOf liNode = n0 :: rest →
  firstTextNode (Children n0) = Some issueText →
  Attr_ "href" (issueNodeOf liNode) = None →
  ∃ v', liEach liNode v = Returns v' ∧
        headerContentDict v' = headerContentDict v ∧ headers v' = headers v ∧
        stats v' = count (Data userText) (stats v) ∧ stats v' ≠ stats v ∧
        (nonneg (stats v) → total (stats v) < max_int →
         total (stats v') = total (stats v) + 1).
Proof.
  intros Hb Ht Hc Hk Hi Hit Ha.
  rewrite (liEach_reaches_rest liNode userText v Hb Ht Hk).
  destruct (withUser_fields liNode v) as (Hh & Hd & Hs).
  unfold liRest. rewrite Hi in Ha |- *. rewrite Hit, Ha.
  eexists. split; [reflexivity |]. cbn [headerContentDict headers stats Println setStats].
  rewrite Hs. repeat split; try done.
  - by apply count_classified_changes.
  - intros Hn Hlt. destruct (count_total (Data userText) (stats v) Hn Hlt) as [_ ->].
    by rewrite Hc.
Qed.

Lemma issue_link_missing_still_counted_witness :
  ∃ v', liEach noIssueLinkItem (pushHeader "go-storage" initVars) = Returns v' ∧
        headerContentDict v' = ∅ ∧ total (stats v') = 1.
Proof.
  destruct (issue_link_missing_still_counted noIssueLinkItem
              (Sample.text " closed issue ")
              (Sample.elem "a" [] [Sample.text "Bug X"]) (Sample.text "Bug X") []
              (pushHeader "go-storage" initVars))
    as (v' & Hr & Hd & _ & _ & _ & Htot);
    [ vm_compute; reflexivity | vm_compute; reflexivity | vm_compute; reflexivity
    | right; exists "https://github.com/@alice"; vm_compute; reflexivity
    | vm_compute; reflexivity | vm_compute; reflexivity | vm_compute; reflexivity |].
  exists v'. split; [exact Hr |]. split; [exact Hd |].
  rewrite Htot; [vm_compute; reflexivity | unfold nonneg; cbn; lia | vm_compute; reflexivity].
Defined.

(** C9, as the specification states it, fails on two list items that are no
    bot's, have a matching action text and an issue anchor without [href]:
    [noLinksItem], whose unregistered user mention has no [href] either, is
    left at line 146 with all four counters as they were; [bareAnchorItem],
    whose issue anchor has no text node, is not skipped but panics at line
    159. *)
Lemma issue_link_missing_not_always_counted :
  (isBot (handleOf noLinksItem) = false ∧
   firstTextNode (Children noLinksItem) = Some (Sample.text " opened issue ") ∧
   classified " opened issue " = true ∧
   issueNodeOf noLinksItem = [Sample.elem "a" [] [Sample.text "Bug Z"]] ∧
   Attr_ "href" (issueNodeOf noLinksItem) = None ∧
   liEach noLinksItem scenarioAHeading =
     Returns (Println "get href from user failed, text:" "@carol" scenarioAHeading) ∧
   stats (Println "get href from user failed, text:" "@carol" scenarioAHeading)
     = stats scenarioAHeading) ∧
  (isBot (handleOf bareAnchorItem) = false ∧
   firstTextNode (Children bareAnchorItem) = Some (Sample.text " opened issue ") ∧
   issueNodeOf bareAnchorItem = [Sample.elem "a" [] []] ∧
   Attr_ "href" (issueNodeOf bareAnchorItem) = None ∧
   liEach bareAnchorItem scenarioAHeading = Panics NilDereference).
Proof. repeat split; vm_compute; reflexivity. Qed.

(** ** Panics of a list item *)

Lemma liEach_no_text (liNode : Node) (v : Vars) :
  isBot (handleOf liNode) = false → firstTextNode (Children liNode) = None →
  liEach liNode v = Panics NilDereference.
Proof. intros Hb Ht. by rewrite liEach_unfold, Hb, Ht. Qed.

Lemma liEach_no_anchor (liNode userText : Node) (v : Vars) :
  isBot (handleOf liNode) = false → firstTextNode (Children liNode) = Some userText →
  userLinkKnown liNode v → issueNodeOf liNode = [] →
  liEach liNode v = Panics (IndexOutOfRange 0 0).
Proof.
  intros Hb Ht Hk Hi. rewrite (liEach_reaches_rest liNode userText v Hb Ht Hk).
  unfold liRest. by rewrite Hi.
Qed.

Lemma liEach_anchor_no_text (liNode userText n0 : Node) (rest : list Node) (v : Vars) :
  isBot (handleOf liNode) = false → firstTextNode (Children liNode) = Some userText →
  userLinkKnown liNode v → issueNodeOf liNode = n0 :: rest →
  firstTextNode (Children n0) = None →
  liEach liNode v = Panics NilDereference.
Proof.
  intros Hb Ht Hk Hi Hn. rewrite (liEach_reaches_rest liNode userText v Hb Ht Hk).
  unfold liRest. by rewrite Hi, Hn.
Qed.

(** C10. The callback on a list item can panic. A list item that is no bot
    and has no text node among its children makes the sibling walk of line
    137 dereference nil. One that reaches line 155 and has no anchor below
    its element children makes [issueNode.Nodes[0]] index an empty slice;
    one whose first such anchor has no text node among its children makes
    the walk of line 159 dereference nil. Documents with such an item under
    a heading end in these panics, and in nothing else. *)
Theorem list_item_can_panic :
  (∀ liNode v, isBot (handleOf liNode) = false →
     firstTextNode (Children liNode) = None →
     liEach liNode v = Panics NilDereference) ∧
  (∀ liNode userText v, isBot (handleOf liNode) = false →
     firstTextNode (Children liNode) = Some userText →
     userLinkKnown liNode v → issueNodeOf liNode = [] →
     liEach liNode v = Panics (IndexOutOfRange 0 0)) ∧
  (∀ liNode userText n0 rest v, isBot (handleOf liNode) = false →
     firstTextNode (Children liNode) = Some userText →
     userLinkKnown liNode v → issueNodeOf liNode = n0 :: rest →
     firstTextNode (Children n0) = None →
     liEach liNode v = Panics NilDereference) ∧
  (∀ e, generateReport (Parsed (underHeading noTextItem)) e ↔ e = Crashed NilDereference) ∧
  (∀ e, generateReport (Parsed (underHeading noAnchorItem)) e ↔
        e = Crashed (IndexOutOfRange 0 0)) ∧
  (∀ e, generateReport (Parsed (underHeading emptyAnchorItem)) e ↔
        e = Crashed NilDereference).
Proof.
  split; [exact liEach_no_text |]. split; [exact liEach_no_anchor |].
  split; [exact liEach_anchor_no_text |].
  assert (Hiff : ∀ doc p, traverse doc = Panics p →
                   ∀ e, generateReport (Parsed doc) e ↔ e = Crashed p).
  { intros doc p Hp e. split; [by apply generateReport_crash |].
    intros ->. by constructor. }
  split; [| split]; apply Hiff; vm_compute; reflexivity.
Qed.

Lemma list_item_can_panic_witness :
  liEach noTextItem initVars = Panics NilDereference ∧
  liEach noAnchorItem initVars = Panics (IndexOutOfRange 0 0) ∧
  liEach emptyAnchorItem initVars = Panics NilDereference.
Proof.
  destruct list_item_can_panic as (H1 & H2 & H3 & _).
  split; [| split].
  - apply H1; vm_compute; reflexivity.
  - apply (H2 noAnchorItem (Sample.text " opened issue "));
      [ vm_compute; reflexivity | vm_compute; reflexivity
      | right; exists "https://github.com/@alice"; vm_compute; reflexivity
      | vm_compute; reflexivity ].
  - apply (H3 emptyAnchorItem (Sample.text " opened issue ")
              (Sample.elem "a" [Sample.href "http://x"] []) []);
      [ vm_compute; reflexivity | vm_compute; reflexivity
      | right; exists "https://github.com/@alice"; vm_compute; reflexivity
      | vm_compute; reflexivity | vm_compute; reflexivity ].
Defined.

(** ** Headings *)

Lemma Is_h2_not_ul (s : Node) : Is "h2" [s] = true → Is "ul" [s] = false.
Proof.
  unfold Is, Match. cbn [existsb compileMatcher Str.split_dot m_tag m_class].
  change (compileMatcher "h2") with {| m_tag := "h2"; m_class := None |}.
  change (compileMatcher "ul") with {| m_tag := "ul"; m_class := None |}.
  cbn [m_tag m_class]. rewrite !orb_false_r, !andb_true_r.
  intros [_ Hd%String.eqb_eq]%andb_true_iff. rewrite Hd.
  by rewrite andb_false_r.
Qed.

Lemma childEach_h2 (s : Node) (v : Vars) :
  Is "h2" [s] = true →
  childEach s v =
    Returns (setContent (Text (ChildrenFiltered "a" [s])) []
               (pushHeader (Text (ChildrenFiltered "a" [s])) v)).
Proof. intros H. unfold childEach. by rewrite H. Qed.

Lemma childEach_ul (s : Node) (v : Vars) :
  Is "ul" [s] = true → childEach s v = Each liEach (ChildrenFiltered "li" [s]) v.
Proof.
  intros H. unfold childEach.
  destruct (Is "h2" [s]) eqn:Hh; [| by rewrite H].
  apply Is_h2_not_ul in Hh. congruence.
Qed.

Lemma childEach_other (s : Node) (v : Vars) :
  Is "h2" [s] = false → Is "ul" [s] = false → childEach s v = Returns v.
Proof. intros H1 H2. unfold childEach. by rewrite H1, H2. Qed.

(** No traversal ends in [log.Fatal]. *)
Lemma generateReport_Parsed_not_Fatal (doc : Node) (msg : string) :
  ¬ generateReport (Parsed doc) (Fatal msg).
Proof. intros [(p & _ & ?) | (v & users & _ & _ & ?)]%generateReport_Parsed; done. Qed.

Lemma traverse_bareHeadingDoc : traverse bareHeadingDoc = Returns bareHeadingVars.
Proof. vm_compute. reflexivity. Qed.

Lemma rangeOrder_singleton (user link : string) (users : list (string * string)) :
  rangeOrder {[ user := link ]} users → users = [(user, link)].
Proof.
  unfold rangeOrder. rewrite map_to_list_singleton. apply Permutation_singleton_r.
Qed.

(** C2, as the specification states it, fails on [bareHeadingDoc]: its
    first heading has no anchor child, yet the run is not aborted; it
    registers a section with the empty name, goes on to the list and writes
    the report. *)
Lemma bare_heading_not_fatal :
  (∃ s, s ∈ reportChildren bareHeadingDoc ∧ Is "h2" [s] = true ∧
        ChildrenFiltered "a" [s] = []) ∧
  (∀ e, generateReport (Parsed bareHeadingDoc) e ↔
        e = Written (writeReport bareHeadingVars [("@alice", "https://github.com/@alice")])) ∧
  (∀ msg, ¬ generateReport (Parsed bareHeadingDoc) (Fatal msg)) ∧
  headingLine "" ∈ writeReport bareHeadingVars [("@alice", "https://github.com/@alice")].
Proof.
  split; [| split; [| split]].
  - exists (Sample.elem "h2" [] [Sample.text "Misc"]).
    split; [| split; vm_compute; reflexivity].
    change (reportChildren bareHeadingDoc) with
      [Sample.elem "h2" [] [Sample.text "Misc"];
       Sample.ul [Sample.li "@alice" " opened issue " "Bug X" "http://x"]].
    left.
  - intros e. split.
    + intros [(p & Hp & _) | (v & users & Hv & Hu & ->)]%generateReport_Parsed.
      * rewrite traverse_bareHeadingDoc in Hp. done.
      * rewrite traverse_bareHeadingDoc in Hv. injection Hv as <-.
        by apply rangeOrder_singleton in Hu as ->.
    + intros ->. apply gr_written; [exact traverse_bareHeadingDoc |].
      unfold rangeOrder. cbn [userDict bareHeadingVars].
      by rewrite map_to_list_singleton.
  - intros msg. apply generateReport_Parsed_not_Fatal.
  - vm_compute. do 2 right. left.
Qed.

(** C2, amended. The callback on a heading never fails: it appends the
    text of the heading's anchor children to [headers] and gives that name
    an empty entry list. For a heading with no anchor child that name is
    the empty string, and the walk goes on with the next child; no run on a
    parsed document ends in [log.Fatal]. *)
Theorem heading_without_anchor_registers_empty_name (s : Node) (rest : list Node) (v : Vars) :
  Is "h2" [s] = true → ChildrenFiltered "a" [s] = [] →
  childEach s v = Returns (setContent "" [] (pushHeader "" v)) ∧
  Each childEach (s :: rest) v = Each childEach rest (setContent "" [] (pushHeader "" v)) ∧
  ∀ doc msg, ¬ generateReport (Parsed doc) (Fatal msg).
Proof.
  intros Hh Ha.
  assert (Hs : childEach s v = Returns (setContent "" [] (pushHeader "" v))).
  { rewrite (childEach_h2 s v Hh), Ha. reflexivity. }
  split; [exact Hs |]. split; [| exact generateReport_Parsed_not_Fatal].
  simpl. by rewrite Hs.
Qed.

Lemma heading_without_anchor_registers_empty_name_witness :
  childEach (Sample.elem "h2" [] [Sample.text "Misc"]) initVars
    = Returns (setContent "" [] (pushHeader "" initVars)).
Proof.
  apply (heading_without_anchor_registers_empty_name
           (Sample.elem "h2" [] [Sample.text "Misc"]) [] initVars);
    vm_compute; reflexivity.
Defined.

(** ** Lists before the first heading *)

Lemma liEach_headers (liNode : Node) (v v' : Vars) :
  liEach liNode v = Returns v' → headers v' = headers v.
Proof.
  rewrite liEach_unfold.
  destruct (isBot (handleOf liNode)); [by intros [= <-] |].
  destruct (firstTextNode (Children liNode)) as [userText |]; [| done].
  destruct (withUser_fields liNode v) as (Hh & _ & _).
  destruct (userDict v !! handleOf liNode), (Attr_ "href" (userNodeOf liNode));
    try (intros (_ & -> & _)%liRest_returns; exact Hh).
  by intros [= <-].
Qed.

Lemma childEach_headers_no_h2 (s : Node) (v v' : Vars) :
  Is "h2" [s] = false → childEach s v = Returns v' → headers v' = headers v.
Proof.
  intros Hh. unfold childEach. rewrite Hh.
  destruct (Is "ul" [s]); [| by intros [= <-]].
  apply (Each_preserves (λ w, headers w = headers v)); [| done].
  intros n w w' _ Hw Hn. apply liEach_headers in Hn. congruence.
Qed.

Lemma liEach_extractable_no_header (liNode : Node) (v : Vars) :
  extractable liNode → headers v = [] →
  liEach liNode v = Panics (IndexOutOfRange (-1) 0).
Proof.
  intros (Hb & [userText Ht] & Hu & (n0 & rest & Hi & [issueText Hit]) & [link Hl]) Hh.
  rewrite (liEach_reaches_rest liNode userText v Hb Ht (or_intror Hu)).
  destruct (withUser_fields liNode v) as (Hh' & _ & _).
  unfold liRest. rewrite Hi in Hl |- *. rewrite Hit, Hl.
  cbn [headers setStats]. by rewrite Hh', Hh.
Qed.

Lemma alice_item_extractable :
  extractable (Sample.li "@alice" " opened issue " "Bug X" "http://x").
Proof.
  split; [vm_compute; reflexivity |].
  split; [exists (Sample.text " opened issue "); vm_compute; reflexivity |].
  split; [exists "https://github.com/@alice"; vm_compute; reflexivity |].
  split; [| exists "http://x"; vm_compute; reflexivity].
  exists (Sample.elem "a" [Sample.href "http://x"] [Sample.text "Bug X"]), [].
  split; [vm_compute; reflexivity |].
  exists (Sample.text "Bug X"). vm_compute; reflexivity.
Qed.

Lemma reportChildren_listFirstDoc :
  reportChildren listFirstDoc =
    [Sample.ul [Sample.li "@alice" " opened issue " "Bug X" "http://x"];
     Sample.h2 "go-storage"].
Proof. vm_compute. reflexivity. Qed.

(** C3, as the specification states it, fails on [listFirstDoc]: the list
    with its extractable item of "@alice" comes before the only heading,
    and the run does not end in a [log.Fatal] abort but in the panic of
    indexing [headers] at -1. *)
Lemma list_before_heading_not_fatal :
  extractable (Sample.li "@alice" " opened issue " "Bug X" "http://x") ∧
  reportChildren listFirstDoc =
    [Sample.ul [Sample.li "@alice" " opened issue " "Bug X" "http://x"];
     Sample.h2 "go-storage"] ∧
  (∀ e, generateReport (Parsed listFirstDoc) e ↔ e = Crashed (IndexOutOfRange (-1) 0)) ∧
  (∀ msg, ¬ generateReport (Parsed listFirstDoc) (Fatal msg)).
Proof.
  assert (Hp : traverse listFirstDoc = Panics (IndexOutOfRange (-1) 0))
    by (vm_compute; reflexivity).
  split; [exact alice_item_extractable |].
  split; [exact reportChildren_listFirstDoc |]. split.
  - intros e. split; [by apply generateReport_crash |].
    intros ->. by constructor.
  - intros msg. apply generateReport_Parsed_not_Fatal.
Qed.

(** C3, amended. When a list with a bot-free, fully extractable item comes
    before every heading, the run ends in an unrecovered run-time panic and
    writes nothing: at that item [headers] is still empty and
    [headers[len(headers)-1]] indexes it at -1 (unless an earlier item has
    panicked already). There is no [log.Fatal] abort and no entry is
    recorded, the process being gone. *)
Theorem list_before_heading_panics
    (doc : Node) (pre post : list Node) (ulNode liNode : Node) :
  reportChildren doc = pre ++ ulNode :: post →
  (∀ s, s ∈ pre → Is "h2" [s] = false) →
  Is "ul" [ulNode] = true →
  liNode ∈ ChildrenFiltered "li" [ulNode] →
  extractable liNode →
  (∀ v, headers v = [] → liEach liNode v = Panics (IndexOutOfRange (-1) 0)) ∧
  ∃ p, traverse doc = Panics p ∧
       ∀ e, generateReport (Parsed doc) e ↔ e = Crashed p.
Proof.
  intros Hdoc Hpre Hul Hli Hex.
  split; [intros v; by apply liEach_extractable_no_header |].
  assert (Hp : ∃ p, traverse doc = Panics p).
  { unfold traverse. rewrite Hdoc, Each_app.
    destruct (Each childEach pre initVars) as [v1 | p] eqn:H1; [| by exists p].
    assert (Hh1 : headers v1 = []).
    { revert H1. apply (Each_preserves (λ w, headers w = [])); [| done].
      intros n w w' Hn Hw Hc.
      apply childEach_headers_no_h2 in Hc; [congruence | by apply Hpre]. }
    cbn [Each]. rewrite (childEach_ul ulNode v1 Hul).
    apply list_elem_of_split in Hli as (l1 & l2 & ->).
    rewrite Each_app.
    destruct (Each liEach l1 v1) as [v2 | p] eqn:H2; [| by exists p].
    assert (Hh2 : headers v2 = []).
    { revert H2. apply (Each_preserves (λ w, headers w = [])); [| done].
      intros n w w' _ Hw Hc. apply liEach_headers in Hc. congruence. }
    cbn [Each]. rewrite (liEach_extractable_no_header liNode v2 Hex Hh2).
    by eexists. }
  destruct Hp as [p Hp]. exists p. split; [done |].
  intros e. split; [by apply generateReport_crash |].
  intros ->. by constructor.
Qed.

Lemma list_before_heading_panics_witness :
  ∃ p, traverse listFirstDoc = Panics p.
Proof.
  destruct (list_before_heading_panics listFirstDoc []
              [Sample.h2 "go-storage"]
              (Sample.ul [Sample.li "@alice" " opened issue " "Bug X" "http://x"])
              (Sample.li "@alice" " opened issue " "Bug X" "http://x"))
    as (_ & p & Hp & _).
  - exact reportChildren_listFirstDoc.
  - intros s Hs. by apply elem_of_nil in Hs.
  - vm_compute. reflexivity.
  - change (ChildrenFiltered "li"
              [Sample.ul [Sample.li "@alice" " opened issue " "Bug X" "http://x"]])
      with [Sample.li "@alice" " opened issue " "Bug X" "http://x"].
    left.
  - exact alice_item_extractable.
  - by exists p.
Defined.

(** ** The shape of the written lines *)

Lemma str_app_length (a b : string) :
  String.length (a +:+ b) = (String.length a + String.length b)%nat.
Proof. induction a as [| c a IH]; simpl; [done | by rewrite IH]. Qed.

Lemma str_app_inj (a a' b b' : string) :
  String.length a = String.length a' → a +:+ b = a' +:+ b' → a = a' ∧ b = b'.
Proof.
  revert a'. induction a as [| c a IH]; intros [| c' a'] Hlen H; simpl in *; try done.
  injection H as -> H. injection Hlen as Hlen.
  destruct (IH a' Hlen H) as [-> ->]. done.
Qed.


Lemma headingLine_inj (h h' : string) : headingLine h = headingLine h' → h = h'.
Proof.
  unfold headingLine. intros H. apply (inj (String.append "## [")) in H.
  pose proof (f_equal String.length H) as Hlen.
  rewrite !str_app_length in Hlen.
  apply str_app_inj in H; [tauto | lia].
Qed.


(** The writes of a report, by the line that makes them. *)
Lemma writeReport_elem (v : Vars) (users : list (string * string)) (x : string) :
  x ∈ writeReport v users ↔
    x = statsBlock (stats v) ∨ x = nl ∨
    (∃ header, header ∈ headers v ∧ x ∈ writeHeader v header) ∨
    (∃ user link, (user, link) ∈ users ∧ x = userLine user link).
Proof.
  unfold writeReport. rewrite !elem_of_app, !elem_of_cons, list_elem_of_fmap.
  rewrite !list_elem_of_In, in_flat_map. setoid_rewrite <- list_elem_of_In.
  split.
  - intros [[-> | [-> | []%elem_of_nil]] | [(h & Hh & Hx) | [[-> | []%elem_of_nil] | ([u l] & -> & Hin)]]];
      eauto 10.
  - intros [-> | [-> | [(h & Hh & Hx) | (u & l & Hin & ->)]]]; eauto 10.
    right. right. right. by exists (u, l).
Qed.

Lemma writeHeader_elem (v : Vars) (header x : string) :
  x ∈ writeHeader v header ↔
    contentsOf v header ≠ [] ∧
    (x = headingLine header ∨ x = nl ∨ ∃ c, c ∈ contentsOf v header ∧ x = contentLine c).
Proof.
  unfold writeHeader. destruct (contentsOf v header) as [| c0 cs] eqn:Hc; simpl length.
  - simpl. split; [by intros ?%elem_of_nil | by intros [? _]].
  - cbn [Nat.eqb]. rewrite !elem_of_app, !elem_of_cons, list_elem_of_fmap.
    split.
    + intros [[-> | [-> | []%elem_of_nil]] | [(c & -> & Hin) | [-> | []%elem_of_nil]]];
        (split; [done |]); eauto 10.
    + intros [_ [-> | [-> | (c & Hin & ->)]]]; eauto 10.
Qed.

Lemma headingLine_written (v : Vars) (users : list (string * string)) (header : string) :
  headingLine header ∈ writeReport v users ↔
    header ∈ headers v ∧ contentsOf v header ≠ [].
Proof.
  rewrite writeReport_elem. split.
  - intros [H | [H | [(h & Hh & Hx) | (u & l & _ & H)]]];
      try (apply (f_equal firstByte) in H; by vm_compute in H).
    apply writeHeader_elem in Hx as [Hne [H | [H | (c & _ & H)]]];
      try (apply (f_equal firstByte) in H; by vm_compute in H).
    apply headingLine_inj in H as ->. done.
  - intros [Hh Hne]. right. right. left. exists header. split; [done |].
    apply writeHeader_elem. split; [done | by left].
Qed.


(** ** Sections in the output *)

Lemma writeHeader_empty (v : Vars) (header : string) :
  contentsOf v header = [] → writeHeader v header = [].
Proof. intros H. unfold writeHeader. by rewrite H. Qed.

Lemma writeHeader_sections (v : Vars) (hs : list string) :
  flat_map (writeHeader v) hs = flat_map (sectionBlock v) (List.filter (hasEntries v) hs).
Proof.
  induction hs as [| h hs IH]; [done |].
  cbn [flat_map List.filter]. unfold hasEntries at 1, writeHeader at 1.
  destruct (length (contentsOf v h) =? 0)%nat; cbn [negb]; [exact IH |].
  cbn [flat_map]. by rewrite IH.
Qed.

(** C8. The formatter writes nothing for a section whose entry list is
    empty: the turn of the loop for it makes no write and its heading line
    is nowhere in the output, also when it is the only section, in which
    case the output is the statistics block, the two line breaks and the
    user lines. The sections that have entries are written in the order of
    [headers], each as its heading line, a line break, its entries and a
    line break. *)
Theorem empty_sections_not_written (v : Vars) (users : list (string * string)) :
  (∀ header, contentsOf v header = [] →
     writeHeader v header = [] ∧ headingLine header ∉ writeReport v users) ∧
  (∀ header, headers v = [header] → contentsOf v header = [] →
     writeReport v users =
       [statsBlock (stats v); nl; nl] ++ map (λ e, userLine e.1 e.2) users) ∧
  writeReport v users =
    [statsBlock (stats v); nl] ++
    flat_map (sectionBlock v) (List.filter (hasEntries v) (headers v)) ++
    [nl] ++ map (λ e, userLine e.1 e.2) users ∧
  (∀ header, header ∈ List.filter (hasEntries v) (headers v) ↔
             header ∈ headers v ∧ contentsOf v header ≠ []).
Proof.
  split; [| split; [| split]].
  - intros header He. split; [by apply writeHeader_empty |].
    rewrite headingLine_written. intros [_ Hne]. done.
  - intros header Hh He. unfold writeReport. rewrite Hh. cbn [flat_map].
    by rewrite (writeHeader_empty v header He).
  - unfold writeReport. by rewrite writeHeader_sections.
  - intros header. rewrite list_elem_of_In, filter_In, <- list_elem_of_In.
    unfold hasEntries. destruct (contentsOf v header); simpl; split; intros [? ?]; done.
Qed.

Lemma empty_sections_not_written_witness :
  writeReport (setContent "go-storage" [] (pushHeader "go-storage" initVars)) [] =
    [statsBlock zeroCounters; nl; nl].
Proof.
  destruct (empty_sections_not_written
              (setContent "go-storage" [] (pushHeader "go-storage" initVars)) [])
    as (_ & Hone & _).
  apply (Hone "go-storage"); vm_compute; reflexivity.
Defined.

(** ** Repeated headings *)

Lemma Each_childEach_headers (cs : list Node) (v v' : Vars) :
  Each childEach cs v = Returns v' →
  headers v' = headers v ++ map headingName (List.filter isHeading cs).
Proof.
  revert v. induction cs as [| s cs IH]; intros v H; cbn [Each] in H.
  - injection H as <-. by rewrite app_nil_r.
  - destruct (childEach s v) as [v1 |] eqn:Hs; [| done].
    apply IH in H. cbn [List.filter]. unfold isHeading at 1.
    destruct (Is "h2" [s]) eqn:Hh.
    + rewrite (childEach_h2 s v Hh) in Hs. injection Hs as <-.
      rewrite H. cbn [headers setContent pushHeader map].
      by rewrite <- app_assoc.
    + apply (childEach_headers_no_h2 s v v1 Hh) in Hs. by rewrite H, Hs.
Qed.

Lemma timesWritten_absent (line : string) (out : list string) :
  line ∉ out → timesWritten line out = 0%nat.
Proof. rewrite list_elem_of_In. apply count_occ_not_In. Qed.

Lemma timesWritten_writeHeader (v : Vars) (name header : string) :
  timesWritten (headingLine name) (writeHeader v header) =
    if decide (header = name) then (if hasEntries v name then 1 else 0)%nat else 0%nat.
Proof.
  unfold writeHeader, hasEntries. case_decide as Heq.
  - subst header. destruct (length (contentsOf v name) =? 0)%nat; cbn [negb]; [done |].
    unfold timesWritten. cbn [app]. rewrite count_occ_cons_eq by done.
    f_equal. apply count_occ_not_In. rewrite <- list_elem_of_In.
    rewrite elem_of_cons, elem_of_app, list_elem_of_fmap, list_elem_of_singleton.
    intros [H | [(c & H & _) | H]];
      apply (f_equal firstByte) in H; by vm_compute in H.
  - destruct (length (contentsOf v header) =? 0)%nat; [done |].
    apply timesWritten_absent.
    rewrite !elem_of_app, !elem_of_cons, list_elem_of_fmap.
    intros [[H | [H | []%elem_of_nil]] | [(c & H & _) | [H | []%elem_of_nil]]];
      try (apply (f_equal firstByte) in H; by vm_compute in H).
    apply headingLine_inj in H. congruence.
Qed.

Lemma timesWritten_headingLine (v : Vars) (users : list (string * string)) (name : string) :
  timesWritten (headingLine name) (writeReport v users) =
    if hasEntries v name then count_occ string_dec (headers v) name else 0%nat.
Proof.
  unfold writeReport, timesWritten. rewrite !count_occ_app.
  assert (H1 : count_occ string_dec [statsBlock (stats v); nl] (headingLine name) = 0%nat).
  { apply count_occ_not_In. rewrite <- list_elem_of_In, !elem_of_cons.
    intros [H | [H | []%elem_of_nil]];
      apply (f_equal firstByte) in H; by vm_compute in H. }
  assert (H2 : count_occ string_dec [nl] (headingLine name) = 0%nat).
  { apply count_occ_not_In. rewrite <- list_elem_of_In, !elem_of_cons.
    intros [H | []%elem_of_nil]; apply (f_equal firstByte) in H; by vm_compute in H. }
  assert (H3 : count_occ string_dec (map (λ e, userLine e.1 e.2) users) (headingLine name)
               = 0%nat).
  { apply count_occ_not_In. rewrite <- list_elem_of_In, list_elem_of_fmap.
    intros (e & H & _). apply (f_equal firstByte) in H; by vm_compute in H. }
  rewrite H1, H2, H3, Nat.add_0_l, !Nat.add_0_r. clear H1 H2 H3.
  induction (headers v) as [| h hs IH]; cbn [flat_map].
  - by destruct (hasEntries v name).
  - rewrite count_occ_app, IH.
    pose proof (timesWritten_writeHeader v name h) as Hh. unfold timesWritten in Hh.
    rewrite Hh. case_decide as Heq.
    + subst h. rewrite count_occ_cons_eq by done. by destruct (hasEntries v name).
    + rewrite count_occ_cons_neq by done. by destruct (hasEntries v name).
Qed.

Lemma traverse_dupDoc : traverse dupDoc = Returns dupVars.
Proof. vm_compute. reflexivity. Qed.

(** C1, as the specification states it, fails on [dupDoc]: the name of the
    repeated heading is in [headers] twice, and every report the run can
    write has the heading line of "go-storage" twice. *)
Lemma repeated_heading_duplicated :
  traverse dupDoc = Returns dupVars ∧
  headers dupVars = ["go-storage"; "go-storage"] ∧
  ¬ NoDup (headers dupVars) ∧
  (∃ out, generateReport (Parsed dupDoc) (Written out)) ∧
  ∀ out, generateReport (Parsed dupDoc) (Written out) →
         timesWritten (headingLine "go-storage") out = 2%nat.
Proof.
  split; [exact traverse_dupDoc |]. split; [reflexivity |]. split; [| split].
  - intros Hnd. apply NoDup_cons in Hnd as [Hn _]. apply Hn. left.
  - exists (writeReport dupVars (map_to_list (userDict dupVars))).
    apply gr_written; [exact traverse_dupDoc | apply Permutation_refl].
  - intros out [(p & Hp & ?) | (v & users & Hv & _ & [= ->])]%generateReport_Parsed;
      [done |].
    rewrite traverse_dupDoc in Hv. injection Hv as <-.
    rewrite timesWritten_headingLine. vm_compute. reflexivity.
Qed.

(** C1, amended. Every heading the traversal meets is appended to
    [headers], also when its name is there already: after a traversal that
    returns, [headers] holds the names of the headings among the report's
    children, one per occurrence and in their order. Each occurrence gives
    its name an empty entry list, dropping the entries the name had. The
    report has the heading line of a name as many times as the name occurs
    in [headers] when the name has entries at the end, and not at all when
    it has none; and each of these heading lines is followed by a line
    break, the same entries (those the name has at the end, in their
    order) and a line break: the report is the statistics block, a line
    break, one such block per occurrence in [headers] of a name with
    entries, a line break and the reference lines. *)
Theorem repeated_heading_listed_again (doc : Node) (v : Vars) :
  traverse doc = Returns v →
  headers v = map headingName (List.filter isHeading (reportChildren doc)) ∧
  (∀ s w, isHeading s = true →
     ∃ w', childEach s w = Returns w' ∧
           headers w' = headers w ++ [headingName s] ∧
           headerContentDict w' !! headingName s = Some []) ∧
  (∀ users name,
     timesWritten (headingLine name) (writeReport v users) =
       if hasEntries v name then count_occ string_dec (headers v) name else 0%nat) ∧
  (∀ users,
     writeReport v users =
       [statsBlock (stats v); nl] ++
       flat_map (λ name, [headingLine name; nl] ++
                         map contentLine (contentsOf v name) ++ [nl])
                (List.filter (λ name, negb (length (contentsOf v name) =? 0)%nat)
                             (headers v)) ++
       [nl] ++ map (λ e, userLine e.1 e.2) users).
Proof.
  intros Hv. split; [| split; [| split]].
  - unfold traverse in Hv. by apply Each_childEach_headers in Hv.
  - intros s w Hs. eexists. split; [by apply childEach_h2 |].
    split; [done |]. cbn [headerContentDict setContent]. apply lookup_insert_eq.
  - intros users name. apply timesWritten_headingLine.
  - intros users. unfold writeReport. by rewrite writeHeader_sections.
Qed.

Lemma repeated_heading_listed_again_witness :
  headers dupVars = map headingName (List.filter isHeading (reportChildren dupDoc)) ∧
  timesWritten (headingLine "go-storage") (writeReport dupVars []) = 2%nat ∧
  writeReport dupVars [] =
    [statsBlock (stats dupVars); nl;
     headingLine "go-storage"; nl;
     contentLine "[@bob] closed issue [Bug Y](http://y)"; nl;
     headingLine "go-storage"; nl;
     contentLine "[@bob] closed issue [Bug Y](http://y)"; nl;
     nl].
Proof.
  destruct (repeated_heading_listed_again dupDoc dupVars traverse_dupDoc)
    as (Hh & _ & Hw & Hb).
  split; [exact Hh |]. split; [rewrite Hw; vm_compute; reflexivity |].
  rewrite Hb. vm_compute. reflexivity.
Defined.

(** ** Entries and reference links *)

Lemma traverse_scenarioA : traverse scenarioA = Returns scenarioAVars.
Proof. vm_compute. reflexivity. Qed.


(** ** The counters of a well-formed document *)

Lemma countedIn_cons (liNode : Node) (items : list Node) :
  countedIn (liNode :: items) = (if counted liNode then 1 else 0) + countedIn items.
Proof.
  unfold countedIn. cbn [List.filter]. destruct (counted liNode); cbn [length]; lia.
Qed.

Lemma countedIn_app (l1 l2 : list Node) : countedIn (l1 ++ l2) = countedIn l1 + countedIn l2.
Proof. unfold countedIn. rewrite List.filter_app, length_app. lia. Qed.

Lemma countedIn_nonneg (items : list Node) : 0 ≤ countedIn items.
Proof. unfold countedIn. lia. Qed.

Lemma liEach_wf (opened : bool) (liNode : Node) (v : Vars) :
  wfItem opened liNode = true →
  (opened = true → headers v ≠ []) →
  nonneg (stats v) →
  total (stats v) + (if counted liNode then 1 else 0) ≤ max_int →
  ∃ v', liEach liNode v = Returns v' ∧ headers v' = headers v ∧
        nonneg (stats v') ∧
        total (stats v') = total (stats v) + (if counted liNode then 1 else 0).
Proof.
  unfold wfItem, counted. intros Hwf Hop Hnn Hle.
  destruct (isBot (handleOf liNode)) eqn:Hb.
  { exists v. rewrite (liEach_bot liNode v Hb). cbn [negb andb].
    repeat split; try done; try apply Hnn. lia. }
  cbn [orb negb andb] in *.
  destruct (firstTextNode (Children liNode)) as [userText |] eqn:Ht; [| done].
  destruct (Attr_ "href" (userNodeOf liNode)) as [userLink |] eqn:Hu; [| done].
  destruct (issueNodeOf liNode) as [| n0 rest] eqn:Hi; [done |].
  destruct (firstTextNode (Children n0)) as [issueText |] eqn:Hit; [| done].
  destruct opened; [| done]. specialize (Hop eq_refl).
  assert (Hk : userLinkKnown liNode v) by (right; by rewrite Hu).
  rewrite (liEach_reaches_rest liNode userText v Hb Ht Hk).
  destruct (withUser_fields liNode v) as (Hh & _ & Hs).
  assert (Hcount : nonneg (count (Data userText) (stats v)) ∧
                   total (count (Data userText) (stats v)) =
                     total (stats v) + (if classified (Data userText) then 1 else 0)).
  { destruct (classified (Data userText)) eqn:Hc.
    - pose proof (count_total (Data userText) (stats v) Hnn ltac:(lia)) as Hct.
      by rewrite Hc in Hct.
    - rewrite (count_unclassified _ _ Hc). split; [done | lia]. }
  unfold liRest. rewrite Hi, Hit.
  destruct (Attr_ "href" (n0 :: rest)) as [issueLink |].
  - cbn [headers setStats]. rewrite Hh.
    destruct (last (headers v)) as [header |] eqn:Hl;
      [| by apply last_None in Hl].
    eexists. split; [reflexivity |]. cbn [headers stats setContent setStats].
    rewrite Hh, Hs. tauto.
  - eexists. split; [reflexivity |]. cbn [headers stats Println setStats].
    rewrite Hh, Hs. tauto.
Qed.

Lemma Each_liEach_wf (opened : bool) (items : list Node) (v : Vars) :
  forallb (wfItem opened) items = true →
  (opened = true → headers v ≠ []) →
  nonneg (stats v) →
  total (stats v) + countedIn items ≤ max_int →
  ∃ v', Each liEach items v = Returns v' ∧ headers v' = headers v ∧
        nonneg (stats v') ∧ total (stats v') = total (stats v) + countedIn items.
Proof.
  revert v. induction items as [| liNode items IH]; intros v Hwf Hop Hnn Hle.
  - exists v. unfold countedIn. cbn. repeat split; try done; try apply Hnn. lia.
  - cbn [forallb] in Hwf. apply andb_true_iff in Hwf as [Hwf1 Hwf].
    rewrite countedIn_cons in Hle |- *.
    pose proof (countedIn_nonneg items) as Hpos.
    destruct (liEach_wf opened liNode v Hwf1 Hop Hnn ltac:(lia)) as (v1 & Hr & Hh1 & Hn1 & Ht1).
    destruct (IH v1 Hwf ltac:(by rewrite Hh1) Hn1 ltac:(lia)) as (v' & Hr' & Hh' & Hn' & Ht').
    exists v'. cbn [Each]. rewrite Hr. split; [done |].
    split; [congruence |]. split; [done | lia].
Qed.

Lemma Each_childEach_wf (opened : bool) (cs : list Node) (v : Vars) :
  wfChildren opened cs = true →
  (opened = true → headers v ≠ []) →
  nonneg (stats v) →
  total (stats v) + countedIn (flat_map listItemsOf cs) ≤ max_int →
  ∃ v', Each childEach cs v = Returns v' ∧ nonneg (stats v') ∧
        total (stats v') = total (stats v) + countedIn (flat_map listItemsOf cs).
Proof.
  revert opened v. induction cs as [| s cs IH]; intros opened v Hwf Hop Hnn Hle.
  - exists v. unfold countedIn. cbn. repeat split; try done; try apply Hnn. lia.
  - cbn [wfChildren] in Hwf. cbn [flat_map] in Hle |- *.
    rewrite countedIn_app in Hle |- *. cbn [Each].
    pose proof (countedIn_nonneg (flat_map listItemsOf cs)) as Hpos.
    destruct (Is "h2" [s]) eqn:Hh.
    + rewrite (childEach_h2 s v Hh).
      assert (Hnone : listItemsOf s = []).
      { unfold listItemsOf. by rewrite (Is_h2_not_ul s Hh). }
      rewrite Hnone in Hle |- *. change (countedIn []) with 0 in *.
      destruct (IH true (setContent (headingName s) [] (pushHeader (headingName s) v)))
        as (v' & Hr & Hn' & Ht'); try done.
      { intros _. cbn [headers setContent pushHeader]. by destruct (headers v). }
      exists v'. split; [exact Hr |]. split; [done |].
      rewrite Ht'. cbn [stats setContent pushHeader]. lia.
    + apply andb_true_iff in Hwf as [Hitems Hwf].
      pose proof (countedIn_nonneg (listItemsOf s)) as Hpos1.
      assert (Hstep : ∃ v1, childEach s v = Returns v1 ∧ headers v1 = headers v ∧
                            nonneg (stats v1) ∧
                            total (stats v1) = total (stats v) + countedIn (listItemsOf s)).
      { unfold listItemsOf in *. destruct (Is "ul" [s]) eqn:Hu.
        - rewrite (childEach_ul s v Hu).
          apply (Each_liEach_wf opened); try done. lia.
        - rewrite (childEach_other s v Hh Hu). exists v.
          change (countedIn []) with 0. repeat split; try done; try apply Hnn. lia. }
      destruct Hstep as (v1 & Hr1 & Hh1 & Hn1 & Ht1). rewrite Hr1.
      destruct (IH opened v1 Hwf ltac:(by rewrite Hh1) Hn1 ltac:(lia))
        as (v' & Hr & Hn' & Ht').
      exists v'. split; [exact Hr |]. split; [done | lia].
Qed.

(** C4. On a well-formed document the traversal returns, and the sum of the
    four counters is then the number of the report's list items that are no
    bot's and whose action text matches one of the four patterns (the
    number being one a Go [int] holds). *)
Theorem counters_sum_counts_items (doc : Node) :
  wellFormed doc = true →
  countedIn (listItems doc) ≤ max_int →
  ∃ v, traverse doc = Returns v ∧
       issueOpen (stats v) + issueClose (stats v) + prOpen (stats v) + prClose (stats v)
         = Z.of_nat (length (List.filter counted (listItems doc))).
Proof.
  intros Hwf Hle. unfold wellFormed in Hwf. unfold listItems in *.
  assert (Hnn : nonneg (stats initVars)) by (unfold nonneg; cbn; lia).
  destruct (Each_childEach_wf false (reportChildren doc) initVars Hwf
              ltac:(done) Hnn ltac:(change (total (stats initVars)) with 0; lia))
    as (v & Hr & _ & Ht).
  exists v. split; [exact Hr |]. exact Ht.
Qed.

Lemma counters_sum_counts_items_witness :
  ∃ v, traverse scenarioA = Returns v ∧
       issueOpen (stats v) + issueClose (stats v) + prOpen (stats v) + prClose (stats v) = 1.
Proof.
  apply (counters_sum_counts_items scenarioA); vm_compute; [reflexivity | discriminate].
Defined.

(** Outside the well-formed documents the sum can fall short: a list item
    whose user mention has no [href] is left at line 146, before [count],
    although its action text matches a pattern. *)
Example missing_user_link_not_counted :
  counted (Sample.elem "li" []
             [Sample.elem "a" [Sample.class "user-mention"] [Sample.text "@carol"];
              Sample.text " opened issue ";
              Sample.elem "span" []
                [Sample.elem "a" [Sample.href "http://z"] [Sample.text "Bug Z"]]]) = true ∧
  liEach (Sample.elem "li" []
            [Sample.elem "a" [Sample.class "user-mention"] [Sample.text "@carol"];
             Sample.text " opened issue ";
             Sample.elem "span" []
               [Sample.elem "a" [Sample.href "http://z"] [Sample.text "Bug Z"]]])
         (pushHeader "go-storage" initVars)
    = Returns (Println "get href from user failed, text:" "@carol"
                 (pushHeader "go-storage" initVars)).
Proof. split; vm_compute; reflexivity. Qed.

(** * Further properties of the traversal *)

(** ** The effect of one list item *)

(** The ways the callback on a list item returns: at line 132 for a bot, at
    line 146 without a user link, or from line 151 on. *)
Lemma liEach_returns (liNode : Node) (v v' : Vars) :
  liEach liNode v = Returns v' →
  (isBot (handleOf liNode) = true ∧ v' = v) ∨
  (isBot (handleOf liNode) = false ∧
   ∃ userText, firstTextNode (Children liNode) = Some userText ∧
     ((userDict v !! handleOf liNode = None ∧
       Attr_ "href" (userNodeOf liNode) = None ∧
       v' = Println "get href from user failed, text:" (handleOf liNode) v) ∨
      (userLinkKnown liNode v ∧
       liRest liNode (handleOf liNode) (Data userText) (withUser liNode v) = Returns v'))).
Proof.
  rewrite liEach_unfold.
  destruct (isBot (handleOf liNode)) eqn:Hb; [intros [= <-]; by left |].
  destruct (firstTextNode (Children liNode)) as [userText |]; [| done].
  intros H. right. split; [done |]. exists userText. split; [done |].
  destruct (userDict v !! handleOf liNode) as [l |] eqn:Hd.
  - right. split; [| done]. left. by rewrite Hd.
  - destruct (Attr_ "href" (userNodeOf liNode)) as [l |] eqn:Ha.
    + right. split; [| done]. right. by rewrite Ha.
    + left. injection H as <-. done.
Qed.

Lemma withUser_userDict (liNode : Node) (v : Vars) :
  userDict (withUser liNode v) = userDict v ∨
  (userDict v !! handleOf liNode = None ∧
   ∃ userLink, Attr_ "href" (userNodeOf liNode) = Some userLink ∧
     userDict (withUser liNode v) = <[handleOf liNode := userLink]> (userDict v)).
Proof.
  unfold withUser. destruct (userDict v !! handleOf liNode) eqn:Hd; [by left |].
  destruct (Attr_ "href" (userNodeOf liNode)) as [userLink |] eqn:Ha; [| by left].
  right. split; [done |]. by exists userLink.
Qed.

Lemma liEach_userDict (liNode : Node) (v v' : Vars) :
  liEach liNode v = Returns v' →
  userDict v' = userDict v ∨
  (isBot (handleOf liNode) = false ∧ userDict v !! handleOf liNode = None ∧
   ∃ userLink, Attr_ "href" (userNodeOf liNode) = Some userLink ∧
     userDict v' = <[handleOf liNode := userLink]> (userDict v)).
Proof.
  intros [[_ ->] | (Hb & t & _ & [(_ & _ & ->) | [_ Hr]])]%liEach_returns;
    [by left | by left |].
  apply liRest_returns in Hr as (Hu & _). rewrite Hu.
  destruct (withUser_userDict liNode v) as [-> | (Hn & l & Ha & ->)]; [by left |].
  right. split; [done |]. split; [done |]. by exists l.
Qed.

Lemma liEach_userDict_mono (liNode : Node) (v v' : Vars) :
  liEach liNode v = Returns v' → userDict v ⊆ userDict v'.
Proof.
  intros [-> | (_ & Hn & l & _ & ->)]%liEach_userDict; [done |].
  by apply insert_subseteq.
Qed.

Lemma childEach_userDict_mono (s : Node) (v v' : Vars) :
  childEach s v = Returns v' → userDict v ⊆ userDict v'.
Proof.
  unfold childEach. destruct (Is "h2" [s]); [by intros [= <-] |].
  destruct (Is "ul" [s]); [| by intros [= <-]].
  apply (Each_preserves (λ w, userDict v ⊆ userDict w)); [| done].
  intros n w w' _ Hw Hn. etrans; [exact Hw |]. by eapply liEach_userDict_mono.
Qed.

(** X1. The user registry keeps the first link of a handle. A list item
    changes the registry only by adding its own handle, not registered
    before, with the [href] of its user mention; and whatever children the
    traversal goes on to visit, a handle that has a link keeps that link. *)
Theorem registry_first_link_wins :
  (∀ liNode v v', liEach liNode v = Returns v' →
     userDict v' = userDict v ∨
     (isBot (handleOf liNode) = false ∧ userDict v !! handleOf liNode = None ∧
      ∃ userLink, Attr_ "href" (userNodeOf liNode) = Some userLink ∧
        userDict v' = <[handleOf liNode := userLink]> (userDict v))) ∧
  (∀ cs v v' user link, Each childEach cs v = Returns v' →
     userDict v !! user = Some link → userDict v' !! user = Some link).
Proof.
  split; [exact liEach_userDict |].
  intros cs v v' user link HE Hu.
  assert (Hsub : userDict v ⊆ userDict v').
  { revert HE. apply (Each_preserves (λ w, userDict v ⊆ userDict w)); [| done].
    intros n w w' _ Hw Hn. etrans; [exact Hw |]. by eapply childEach_userDict_mono. }
  by eapply lookup_weaken.
Qed.

Lemma liEach_aliceAgainItem : liEach aliceAgainItem scenarioAVars = Returns aliceAgainVars.
Proof. vm_compute. reflexivity. Qed.

Lemma registry_first_link_wins_witness :
  Each childEach [Sample.ul [aliceAgainItem]] scenarioAVars = Returns aliceAgainVars ∧
  userDict aliceAgainVars !! "@alice" = Some "https://github.com/@alice".
Proof.
  assert (HE : Each childEach [Sample.ul [aliceAgainItem]] scenarioAVars
               = Returns aliceAgainVars) by (vm_compute; reflexivity).
  split; [exact HE |].
  destruct registry_first_link_wins as [_ H].
  apply (H _ _ _ _ _ HE). vm_compute. reflexivity.
Defined.

(** ** Sections and their entries *)

(** A list item leaves [headers] alone, and the entry lists too unless it
    appends one entry to the list of the last header. *)
Lemma liEach_content (liNode : Node) (v v' : Vars) :
  liEach liNode v = Returns v' →
  headers v' = headers v ∧
  (headerContentDict v' = headerContentDict v ∨
   ∃ header e,
     last (headers v) = Some header ∧ entryFor liNode = [e] ∧
     headerContentDict v' = <[header := contentsOf v header ++ [e]]> (headerContentDict v)).
Proof.
  intros H. split; [by apply liEach_headers in H |].
  apply liEach_returns in H as [[_ ->] | (Hb & t & Ht & [(_ & _ & ->) | [_ Hr]])];
    [by left | by left |].
  destruct (withUser_fields liNode v) as (Hh & Hd & _).
  unfold liRest in Hr.
  destruct (issueNodeOf liNode) as [| n0 rest] eqn:Hi; [done |].
  destruct (firstTextNode (Children n0)) as [issueText |] eqn:Hit; [| done].
  destruct (Attr_ "href" (n0 :: rest)) as [issueLink |] eqn:Ha.
  - cbn [headers setStats] in Hr. rewrite Hh in Hr.
    destruct (last (headers v)) as [header |] eqn:Hl; [| done].
    injection Hr as <-. right.
    exists header, (entryLine (handleOf liNode) (Data t) (Data issueText) issueLink).
    split; [done |]. split.
    + unfold entryFor. by rewrite Hb, Ht, Hi, Hit, Ha.
    + cbn [headerContentDict setContent setStats]. by rewrite Hd.
  - injection Hr as <-. by left.
Qed.

(** X2. A list item never touches [headers] nor the entries of a section
    other than the current one: either all entry lists stay as they are, or
    the list of the last header grows at its end by the one entry of the
    item. *)
Theorem item_appends_to_current_section (liNode : Node) (v v' : Vars) :
  liEach liNode v = Returns v' →
  headers v' = headers v ∧
  ((∀ header, contentsOf v' header = contentsOf v header) ∨
   ∃ current e,
     last (headers v) = Some current ∧ entryFor liNode = [e] ∧
     contentsOf v' current = contentsOf v current ++ [e] ∧
     ∀ header, header ≠ current → contentsOf v' header = contentsOf v header).
Proof.
  intros [Hh [Hd | (current & e & Hl & He & Hd)]]%liEach_content; (split; [done |]).
  - left. intros header. unfold contentsOf. by rewrite Hd.
  - right. exists current, e. split; [done |]. split; [done |]. unfold contentsOf at 1 3.
    rewrite Hd. split.
    + by rewrite lookup_insert_eq.
    + intros header Hne. by rewrite lookup_insert_ne.
Qed.

Lemma item_appends_to_current_section_witness :
  liEach aliceAgainItem scenarioAVars = Returns aliceAgainVars ∧
  headers aliceAgainVars = headers scenarioAVars.
Proof.
  split; [exact liEach_aliceAgainItem |].
  destruct (item_appends_to_current_section _ _ _ liEach_aliceAgainItem) as [Hh _].
  exact Hh.
Defined.

Lemma last_elem_of (l : list string) (x : string) : last l = Some x → x ∈ l.
Proof. intros [l' ->]%last_Some. apply elem_of_app. right. left. Qed.

(** X3. After a traversal that returns, the keys of [headerContentDict]
    are the names in [headers]: every heading met has an entry list, and no
    entry list exists for a name that was never a heading. *)
Theorem sections_are_the_headers (doc : Node) (v : Vars) :
  traverse doc = Returns v →
  ∀ header, is_Some (headerContentDict v !! header) ↔ header ∈ headers v.
Proof.
  unfold traverse.
  apply (Each_preserves
           (λ w, ∀ header, is_Some (headerContentDict w !! header) ↔ header ∈ headers w)).
  - intros s w w' _ Hw. unfold childEach.
    destruct (Is "h2" [s]).
    + generalize (Text (ChildrenFiltered "a" [s])). intros name [= <-] header.
      cbn [headerContentDict headers setContent pushHeader].
      rewrite lookup_insert_is_Some, elem_of_app, list_elem_of_singleton, <- Hw.
      destruct (decide (name = header)) as [-> | Hne]; intuition congruence.
    + destruct (Is "ul" [s]); [| by intros [= <-]].
      apply (Each_preserves
               (λ u, ∀ header, is_Some (headerContentDict u !! header) ↔ header ∈ headers u));
        [| done].
      intros liNode u u' _ Hu [Hh [Hd | (current & e & Hl & _ & Hd)]]%liEach_content header;
        rewrite Hh, Hd; [done |].
      rewrite lookup_insert_is_Some, <- Hu.
      apply last_elem_of, Hu in Hl.
      destruct (decide (current = header)) as [-> | Hne]; intuition congruence.
  - intros header. cbn. rewrite lookup_empty. split; [by intros [? ?] | by intros ?%elem_of_nil].
Qed.

Lemma sections_are_the_headers_witness :
  is_Some (headerContentDict scenarioAVars !! "go-storage") ↔
  "go-storage" ∈ headers scenarioAVars.
Proof. apply (sections_are_the_headers scenarioA scenarioAVars traverse_scenarioA). Defined.

(** A well-formed list item below a heading returns, with its entry (if it
    has one) at the end of the current section. *)
Lemma liEach_wf_entries (liNode : Node) (v : Vars) (current : string) :
  wfItem true liNode = true → last (headers v) = Some current →
  ∃ v', liEach liNode v = Returns v' ∧ headers v' = headers v ∧
        contentsOf v' current = contentsOf v current ++ entryFor liNode ∧
        ∀ header, header ≠ current → contentsOf v' header = contentsOf v header.
Proof.
  unfold wfItem, entryFor. intros Hwf Hl.
  destruct (isBot (handleOf liNode)) eqn:Hb.
  { exists v. rewrite (liEach_bot liNode v Hb), app_nil_r. done. }
  cbn [orb] in Hwf.
  destruct (firstTextNode (Children liNode)) as [userText |] eqn:Ht; [| done].
  destruct (Attr_ "href" (userNodeOf liNode)) as [userLink |] eqn:Hu; [| done].
  destruct (issueNodeOf liNode) as [| n0 rest] eqn:Hi; [done |].
  destruct (firstTextNode (Children n0)) as [issueText |] eqn:Hit; [| done].
  assert (Hk : userLinkKnown liNode v) by (right; by rewrite Hu).
  rewrite (liEach_reaches_rest liNode userText v Hb Ht Hk).
  destruct (withUser_fields liNode v) as (Hh & Hd & _).
  unfold liRest. rewrite Hi, Hit.
  destruct (Attr_ "href" (n0 :: rest)) as [issueLink |].
  - cbn [headers setStats]. rewrite Hh, Hl.
    eexists. split; [reflexivity |]. unfold contentsOf.
    cbn [headers headerContentDict setContent setStats]. rewrite Hh, Hd.
    split; [done |]. split; [by rewrite lookup_insert_eq |].
    intros header Hne. by rewrite lookup_insert_ne.
  - eexists. split; [reflexivity |]. unfold contentsOf.
    cbn [headers headerContentDict Println setStats]. rewrite Hh, Hd, app_nil_r. done.
Qed.

(** X4. A list of well-formed items below a heading is processed to its
    end, and the entries of its items are appended to the current section
    in the order of the items; no other section changes. *)
Theorem list_entries_in_item_order (items : list Node) (v : Vars) (current : string) :
  forallb (wfItem true) items = true → last (headers v) = Some current →
  ∃ v', Each liEach items v = Returns v' ∧ headers v' = headers v ∧
        contentsOf v' current = contentsOf v current ++ flat_map entryFor items ∧
        ∀ header, header ≠ current → contentsOf v' header = contentsOf v header.
Proof.
  revert v. induction items as [| liNode items IH]; intros v Hwf Hl.
  - exists v. cbn. by rewrite app_nil_r.
  - cbn [forallb] in Hwf. apply andb_true_iff in Hwf as [Hwf1 Hwf].
    destruct (liEach_wf_entries liNode v current Hwf1 Hl) as (v1 & Hr1 & Hh1 & Hc1 & Ho1).
    destruct (IH v1 Hwf ltac:(by rewrite Hh1)) as (v' & Hr & Hh & Hc & Ho).
    exists v'. cbn [Each flat_map]. rewrite Hr1. split; [exact Hr |].
    split; [congruence |]. split.
    + by rewrite Hc, Hc1, app_assoc.
    + intros header Hne. by rewrite Ho, Ho1.
Qed.

Lemma list_entries_in_item_order_witness :
  ∃ v', Each liEach [botItem; aliceAgainItem] scenarioAVars = Returns v' ∧
        contentsOf v' "go-storage" =
          ["[@alice]opened issue[Bug X](http://x)";
           "[@alice] closed issue [Bug Y](http://y)"].
Proof.
  destruct (list_entries_in_item_order [botItem; aliceAgainItem] scenarioAVars "go-storage")
    as (v' & Hr & _ & Hc & _); [vm_compute; reflexivity | vm_compute; reflexivity |].
  exists v'. split; [exact Hr |]. rewrite Hc. vm_compute. reflexivity.
Defined.

(** X5. A user mention without [href] stops an item only when its handle
    is not registered yet: then the item is left at line 146 with one log
    line and nothing else changed (no counter, no registry entry, no
    entry), and the list goes on with the next item. When the handle is
    registered already the missing [href] is never looked at and the item
    goes on to line 151 with the variables as they are. *)
Theorem missing_user_link_skips_unregistered
    (liNode userText : Node) (rest : list Node) (v : Vars) :
  isBot (handleOf liNode) = false →
  firstTextNode (Children liNode) = Some userText →
  Attr_ "href" (userNodeOf liNode) = None →
  (userDict v !! handleOf liNode = None →
     liEach liNode v = Returns (Println "get href from user failed, text:" (handleOf liNode) v) ∧
     Each liEach (liNode :: rest) v =
       Each liEach rest (Println "get href from user failed, text:" (handleOf liNode) v)) ∧
  (is_Some (userDict v !! handleOf liNode) →
     liEach liNode v = liRest liNode (handleOf liNode) (Data userText) v).
Proof.
  intros Hb Ht Ha. split.
  - intros Hd.
    assert (H : liEach liNode v =
                Returns (Println "get href from user failed, text:" (handleOf liNode) v)).
    { by rewrite liEach_unfold, Hb, Ht, Hd, Ha. }
    split; [exact H |]. cbn [Each]. by rewrite H.
  - intros [l Hd]. rewrite liEach_unfold, Hb, Ht, Hd. unfold withUser. by rewrite Hd.
Qed.

Lemma missing_user_link_skips_unregistered_witness :
  liEach noUserLinkItem scenarioAVars =
    Returns (Println "get href from user failed, text:" "@carol" scenarioAVars) ∧
  Each liEach [noUserLinkItem; aliceAgainItem] scenarioAVars =
    Each liEach [aliceAgainItem]
      (Println "get href from user failed, text:" "@carol" scenarioAVars).
Proof.
  destruct (missing_user_link_skips_unregistered noUserLinkItem
              (Sample.text " opened issue ") [aliceAgainItem] scenarioAVars)
    as [H _]; [vm_compute; reflexivity | vm_compute; reflexivity | vm_compute; reflexivity |].
  apply H. vm_compute. reflexivity.
Defined.

(** ** What the traversal passes over *)

(** X6. Children of the report that are neither [h2] nor [ul] (paragraphs,
    tables, other headings) have no effect at all: the traversal of a list
    of children is the traversal of its [h2] and [ul] members, panics
    included. *)
Theorem other_children_ignored (cs : list Node) (v : Vars) :
  Each childEach cs v = Each childEach (List.filter relevant cs) v.
Proof.
  revert v. induction cs as [| s cs IH]; intros v; [done |].
  cbn [List.filter]. unfold relevant at 1.
  destruct (Is "h2" [s]) eqn:Hh; cbn [orb].
  - cbn [Each]. destruct (childEach s v); [apply IH | done].
  - destruct (Is "ul" [s]) eqn:Hu.
    + cbn [Each]. destruct (childEach s v); [apply IH | done].
    + cbn [Each]. rewrite (childEach_other s v Hh Hu). apply IH.
Qed.

(** X7. The items of bots can be taken out of a list without changing what
    the list does to the variables, panics included. *)
Theorem bot_items_removable (items : list Node) (v : Vars) :
  Each liEach items v = Each liEach (List.filter notBot items) v.
Proof.
  revert v. induction items as [| liNode items IH]; intros v; [done |].
  cbn [List.filter]. unfold notBot at 1.
  destruct (isBot (handleOf liNode)) eqn:Hb; cbn [negb Each].
  - rewrite (liEach_bot liNode v Hb). apply IH.
  - destruct (liEach liNode v); [apply IH | done].
Qed.

(** ** Panics *)

Lemma Each_panic_from (Q : Panic → Prop) (f : Node → Vars → Run Vars) (s : Selection) :
  (∀ n v p, n ∈ s → f n v = Panics p → Q p) →
  ∀ v p, Each f s v = Panics p → Q p.
Proof.
  induction s as [| n s IH]; intros Hf v p HE; cbn [Each] in HE; [done |].
  destruct (f n v) as [v1 | q] eqn:Hn.
  - apply (IH (λ m w q' Hm, Hf m w q' (list_elem_of_further _ _ _ Hm)) v1 p HE).
  - injection HE as <-. apply (Hf n v q); [left | done].
Qed.

Lemma liEach_knownPanic (liNode : Node) (v : Vars) (p : Panic) :
  liEach liNode v = Panics p → knownPanic p.
Proof.
  rewrite liEach_unfold. unfold knownPanic.
  destruct (isBot (handleOf liNode)); [done |].
  destruct (firstTextNode (Children liNode)) as [userText |]; [| intros [= <-]; by left].
  assert (Hrest : ∀ w, liRest liNode (handleOf liNode) (Data userText) w = Panics p →
                       p = NilDereference ∨ p = IndexOutOfRange 0 0 ∨
                       p = IndexOutOfRange (-1) 0).
  { intros w. unfold liRest.
    destruct (issueNodeOf liNode) as [| n0 rest]; [intros [= <-]; tauto |].
    destruct (firstTextNode (Children n0)); [| intros [= <-]; tauto].
    destruct (Attr_ "href" (n0 :: rest)); [| done].
    destruct (last (headers _)); [done | intros [= <-]; tauto]. }
  destruct (userDict v !! handleOf liNode); [apply Hrest |].
  destruct (Attr_ "href" (userNodeOf liNode)); [apply Hrest | done].
Qed.

(** X8. A traversal that does not return ends in one of three panics: the
    nil dereference of a sibling walk (lines 137 and 159), the index 0 of
    an empty [issueNode.Nodes] (line 158), or the index -1 of an empty
    [headers] (line 171). A heading never panics: the callback on an [h2]
    child returns, whatever the heading holds and whatever the variables
    are. *)
Theorem traversal_panics_are_known :
  (∀ doc p, traverse doc = Panics p →
     p = NilDereference ∨ p = IndexOutOfRange 0 0 ∨ p = IndexOutOfRange (-1) 0) ∧
  (∀ s v, Is "h2" [s] = true → ∃ v', childEach s v = Returns v').
Proof.
  split.
  - intros doc p. unfold traverse. apply (Each_panic_from knownPanic).
    intros s v q _. unfold childEach.
    destruct (Is "h2" [s]); [done |]. destruct (Is "ul" [s]); [| done].
    apply (Each_panic_from knownPanic). intros n w r _. apply liEach_knownPanic.
  - intros s v Hs. eexists. by apply childEach_h2.
Qed.

Lemma traversal_panics_are_known_witness :
  traverse listFirstDoc = Panics (IndexOutOfRange (-1) 0) ∧
  (IndexOutOfRange (-1) 0 = NilDereference ∨
   IndexOutOfRange (-1) 0 = IndexOutOfRange 0 0 ∨
   IndexOutOfRange (-1) 0 = IndexOutOfRange (-1) 0) ∧
  ∃ v', childEach (Sample.elem "h2" [] []) initVars = Returns v'.
Proof.
  assert (Hp : traverse listFirstDoc = Panics (IndexOutOfRange (-1) 0))
    by (vm_compute; reflexivity).
  destruct traversal_panics_are_known as [Hk Hh].
  split; [exact Hp |]. split; [exact (Hk listFirstDoc _ Hp) |].
  apply Hh. vm_compute. reflexivity.
Defined.

(** * Further properties of the report *)

(** X9. A page without a report cell, or whose report cell has no element
    children, is no error: the run writes the statistics block with four
    zeros and the two line breaks, and nothing else. *)
Theorem no_report_cell_empty_report (doc : Node) :
  reportChildren doc = [] →
  ∀ e, generateReport (Parsed doc) e ↔ e = Written [statsBlock zeroCounters; nl; nl].
Proof.
  intros Hc.
  assert (Hv : traverse doc = Returns initVars) by (unfold traverse; by rewrite Hc).
  intros e. split.
  - intros [(p & Hp & _) | (v & users & Hv' & Hu & ->)]%generateReport_Parsed;
      [congruence |].
    rewrite Hv in Hv'. injection Hv' as <-.
    unfold rangeOrder in Hu. cbn [userDict initVars] in Hu.
    rewrite map_to_list_empty in Hu. apply Permutation_nil_r in Hu as ->. reflexivity.
  - intros ->.
    change [statsBlock zeroCounters; nl; nl] with (writeReport initVars []).
    apply gr_written; [exact Hv |].
    unfold rangeOrder. cbn [userDict initVars]. by rewrite map_to_list_empty.
Qed.

Lemma no_report_cell_empty_report_witness :
  generateReport (Parsed noCellDoc) (Written [statsBlock zeroCounters; nl; nl]).
Proof.
  apply (no_report_cell_empty_report noCellDoc); [vm_compute; reflexivity | reflexivity].
Defined.



(** ** Counters of any document *)

Lemma liEach_total (liNode : Node) (v v' : Vars) :
  liEach liNode v = Returns v' → nonneg (stats v) →
  total (stats v) + (if counted liNode then 1 else 0) ≤ max_int →
  nonneg (stats v') ∧
  total (stats v) ≤ total (stats v') ≤ total (stats v) + (if counted liNode then 1 else 0).
Proof.
  intros H Hnn Hle. unfold counted in *.
  apply liEach_returns in H as [[Hb ->] | (Hb & t & Ht & [(_ & _ & ->) | [_ Hr]])];
    rewrite Hb, ?Ht in *; cbn [negb andb stats Println] in *.
  - split; [done | lia].
  - split; [done |]. destruct (classified (Data t)); lia.
  - apply liRest_returns in Hr as (_ & _ & -> & _).
    destruct (withUser_fields liNode v) as (_ & _ & ->).
    destruct (classified (Data t)) eqn:Hc.
    + pose proof (count_total (Data t) (stats v) Hnn ltac:(lia)) as [Hn Ht'].
      rewrite Hc in Ht'. split; [done | lia].
    + rewrite (count_unclassified _ _ Hc). split; [done | lia].
Qed.

Lemma Each_liEach_total (items : list Node) (v v' : Vars) :
  Each liEach items v = Returns v' → nonneg (stats v) →
  total (stats v) + countedIn items ≤ max_int →
  nonneg (stats v') ∧ total (stats v) ≤ total (stats v') ≤ total (stats v) + countedIn items.
Proof.
  revert v. induction items as [| liNode items IH]; intros v HE Hnn Hle; cbn [Each] in HE.
  - injection HE as <-. change (countedIn []) with 0. split; [done | lia].
  - rewrite countedIn_cons in Hle |- *. pose proof (countedIn_nonneg items) as Hpos.
    destruct (liEach liNode v) as [v1 |] eqn:H1; [| done].
    destruct (liEach_total liNode v v1 H1 Hnn ltac:(lia)) as [Hn1 Ht1].
    destruct (IH v1 HE Hn1 ltac:(lia)) as [Hn' Ht']. split; [done | lia].
Qed.

Lemma Each_childEach_total (cs : list Node) (v v' : Vars) :
  Each childEach cs v = Returns v' → nonneg (stats v) →
  total (stats v) + countedIn (flat_map listItemsOf cs) ≤ max_int →
  nonneg (stats v') ∧
  total (stats v) ≤ total (stats v') ≤ total (stats v) + countedIn (flat_map listItemsOf cs).
Proof.
  revert v. induction cs as [| s cs IH]; intros v HE Hnn Hle; cbn [Each] in HE.
  - injection HE as <-. change (countedIn (flat_map listItemsOf [])) with 0.
    split; [done | lia].
  - cbn [flat_map] in Hle |- *. rewrite countedIn_app in Hle |- *.
    pose proof (countedIn_nonneg (flat_map listItemsOf cs)) as Hpos.
    pose proof (countedIn_nonneg (listItemsOf s)) as Hpos1.
    destruct (childEach s v) as [v1 |] eqn:H1; [| done].
    assert (Hstep : nonneg (stats v1) ∧
                    total (stats v) ≤ total (stats v1)
                      ≤ total (stats v) + countedIn (listItemsOf s)).
    { unfold childEach in H1. unfold listItemsOf in *.
      destruct (Is "h2" [s]) eqn:Hh.
      - injection H1 as <-. cbn [stats setContent pushHeader]. split; [done | lia].
      - destruct (Is "ul" [s]).
        + apply (Each_liEach_total _ v v1 H1 Hnn). lia.
        + injection H1 as <-. split; [done | lia]. }
    destruct Hstep as [Hn1 Ht1].
    destruct (IH v1 HE Hn1 ltac:(lia)) as [Hn' Ht']. split; [done | lia].
Qed.

(** X11. Whatever the document, the counters of a traversal that returns
    are non-negative and their sum is at most the number of the report's
    list items that are no bot's and have a matching action text (that
    number being one a Go [int] holds): skipped items can only make the
    table fall short, never run over. *)
Theorem counters_never_exceed_items (doc : Node) (v : Vars) :
  traverse doc = Returns v →
  countedIn (listItems doc) ≤ max_int →
  0 ≤ issueOpen (stats v) ∧ 0 ≤ issueClose (stats v) ∧
  0 ≤ prOpen (stats v) ∧ 0 ≤ prClose (stats v) ∧
  issueOpen (stats v) + issueClose (stats v) + prOpen (stats v) + prClose (stats v)
    ≤ Z.of_nat (length (List.filter counted (listItems doc))).
Proof.
  intros Hv Hle. unfold traverse in Hv. unfold listItems in *.
  assert (Hnn : nonneg (stats initVars)) by (unfold nonneg; cbn; lia).
  destruct (Each_childEach_total _ _ _ Hv Hnn
              ltac:(change (total (stats initVars)) with 0; lia))
    as [(H1 & H2 & H3 & H4) [_ Ht]].
  change (total (stats initVars)) with 0 in Ht. unfold total, countedIn in Ht.
  split; [exact H1 |]. split; [exact H2 |]. split; [exact H3 |]. split; [exact H4 |]. lia.
Qed.

Lemma counters_never_exceed_items_witness :
  issueOpen (stats dupVars) + issueClose (stats dupVars) +
  prOpen (stats dupVars) + prClose (stats dupVars)
    ≤ Z.of_nat (length (List.filter counted (listItems dupDoc))).
Proof.
  apply (counters_never_exceed_items dupDoc dupVars traverse_dupDoc).
  vm_compute. discriminate.
Defined.

(** X12. The order in which two action texts are counted does not matter:
    [count] of one text commutes with [count] of another, wrap-around
    included. *)
Theorem count_commutes (a b : string) (c : Counters) :
  count a (count b c) = count b (count a c).
Proof.
  unfold count.
  destruct (regOpenPR a), (regClosePR a), (regOpenIssue a), (regCloseIssue a),
           (regOpenPR b), (regClosePR b), (regOpenIssue b), (regCloseIssue b);
    reflexivity.
Qed.

(** ** The patterns *)

Lemma has_prefix_spec (p s : string) :
  Str.has_prefix p s = true ↔ ∃ post, s = p +:+ post.
Proof.
  revert s. induction p as [| a p IH]; intros s; cbn [Str.has_prefix].
  - split; [intros _; by exists s | done].
  - destruct s as [| b s].
    + split; [done | by intros [post ?]].
    + destruct (Ascii.eqb_spec a b) as [-> | Hne].
      * rewrite IH. split; intros [post H]; exists post.
        -- cbn. by rewrite H.
        -- cbn in H. by injection H.
      * split; [done |]. intros [post H]. cbn in H. injection H as H _. congruence.
Qed.

Lemma contains_spec (sub s : string) :
  Str.contains sub s = true ↔ ∃ pre post, s = pre +:+ sub +:+ post.
Proof.
  induction s as [| c s IH]; cbn [Str.contains]; rewrite orb_true_iff, has_prefix_spec.
  - split.
    + intros [[post H] | ?]; [| done]. by exists "", post.
    + intros ([| ? ?] & post & H); [| done]. left. by exists post.
  - rewrite IH. split.
    + intros [[post H] | (pre & post & H)].
      * by exists "", post.
      * exists (String c pre), post. cbn. by rewrite H.
    + intros ([| c' pre] & post & H).
      * left. by exists post.
      * right. cbn in H. injection H as _ H. by exists pre, post.
Qed.

Lemma classified_spec (text : string) :
  classified text = true ↔
  ∃ pre pat post,
    pat ∈ ["opened pull request"; "merged pull request"; "closed pull request";
           "opened issue"; "closed issue"] ∧
    text = pre +:+ pat +:+ post.
Proof.
  unfold classified, regOpenPR, regClosePR, regOpenIssue, regCloseIssue.
  rewrite !orb_true_iff, !contains_spec. split.
  - intros [[[(pre & post & H) | [(pre & post & H) | (pre & post & H)]]
            | (pre & post & H)] | (pre & post & H)];
      eexists pre, _, post; (split; [| exact H]); rewrite !elem_of_cons; tauto.
  - intros (pre & pat & post & Hin & H). rewrite !elem_of_cons in Hin.
    destruct Hin as [-> | [-> | [-> | [-> | [-> | []%elem_of_nil]]]]]; eauto 10.
Qed.

(** X13. The four patterns are tests for a contiguous, case-sensitive
    occurrence of their words anywhere in the action text: [count] changes
    the counters (whatever they are) exactly when the text is some prefix,
    then one of "opened pull request", "merged pull request", "closed pull
    request", "opened issue" or "closed issue", then some suffix; on every
    other text [count] returns the counters as they are. *)
Theorem patterns_are_substring_tests (text : string) (c : Counters) :
  (count text c ≠ c ↔
   ∃ pre pat post,
     pat ∈ ["opened pull request"; "merged pull request"; "closed pull request";
            "opened issue"; "closed issue"] ∧
     text = pre +:+ pat +:+ post) ∧
  (count text c = c ↔
   ¬ ∃ pre pat post,
       pat ∈ ["opened pull request"; "merged pull request"; "closed pull request";
              "opened issue"; "closed issue"] ∧
       text = pre +:+ pat +:+ post).
Proof.
  rewrite <- classified_spec.
  destruct (classified text) eqn:Hc.
  - pose proof (count_classified_changes text c Hc) as Hne. split.
    + split; [done | intros _; exact Hne].
    + split; [intros H; by destruct (Hne H) | intros H; by destruct H].
  - pose proof (count_unclassified text c Hc) as Heq. split.
    + split; [intros H; by destruct (H Heq) | done].
    + split; [intros _; discriminate | intros _; exact Heq].
Qed.

(** * Acquisition *)


(** X15. The input is fetched exactly when it starts with "http://" or
    "https://" in lower case; then the file system is never asked for it,
    and any status code other than 200 is fatal with the message "status
    code error: <code> <status>", the body unread. Any other input is
    opened as a local file and the network is never asked. *)
Theorem input_fetched_or_opened (w : World) (input output : string) :
  (if String.eqb output "" then None else osCreate w output) = None →
  (Str.has_prefix "http://" input || Str.has_prefix "https://" input = true →
     (∀ f, acquire (withOpen f w) input output = acquire w input output) ∧
     (∀ code status body, httpGet w input = inr (code, status, body) → code ≠ 200 →
        ∀ e, runReport w input output e ↔
             e = Fatal ("status code error: " +:+ fmt_d code +:+ " " +:+ status))) ∧
  (Str.has_prefix "http://" input || Str.has_prefix "https://" input = false →
     (∀ f, acquire (withGet f w) input output = acquire w input output) ∧
     (∀ err, osOpen w input = inl err →
        ∀ e, runReport w input output e ↔ e = Fatal err)).
Proof.
  intros Hc. split; intros Hp.
  - split.
    + intros f. unfold acquire. cbn [osCreate httpGet withOpen]. by rewrite Hc, Hp.
    + intros code status body Hg Hne e. unfold runReport, acquire.
      rewrite Hc, Hp, Hg. apply Z.eqb_neq in Hne. rewrite Hne.
      split; [by inversion 1 | intros ->; constructor].
  - split.
    + intros f. unfold acquire. cbn [osCreate osOpen withGet]. by rewrite Hc, Hp.
    + intros err Ho e. unfold runReport, acquire. rewrite Hc, Hp, Ho.
      split; [by inversion 1 | intros ->; constructor].
Qed.

Lemma input_fetched_or_opened_witness :
  (∀ e, runReport sampleWorld "https://example.org/report" "" e ↔
        e = Fatal "status code error: 404 404 Not Found") ∧
  acquire (withGet (λ _, inl "unreachable") sampleWorld) "HTTP://example.org/report" "out.md"
    = acquire sampleWorld "HTTP://example.org/report" "out.md".
Proof.
  split.
  - destruct (input_fetched_or_opened sampleWorld "https://example.org/report" "")
      as [[_ H] _]; [reflexivity | reflexivity |].
    apply (H 404 "404 Not Found" ""); [reflexivity | discriminate].
  - destruct (input_fetched_or_opened sampleWorld "HTTP://example.org/report" "out.md")
      as [_ [H _]]; [reflexivity | reflexivity |].
    apply H.
Defined.

(** X16. The output file is created before the input is looked at: when
    the output path is not empty and [os.Create] fails, the run is fatal
    with the message of line 59 whatever the input is and whatever the
    network and the file system hold; with an empty output path nothing is
    created and no such failure occurs. *)
Theorem output_created_first (w : World) (input output : string) :
  (∀ err, output ≠ "" → osCreate w output = Some err →
     ∀ e, runReport w input output e ↔
          e = Fatal ("create output file <" +:+ output +:+ "> failed: [" +:+ err +:+ "]")) ∧
  (output = "" → ∀ path err, acquire w input output ≠ CreateFailed path err).
Proof.
  split.
  - intros err Hne Hc e. unfold runReport, acquire.
    apply String.eqb_neq in Hne. rewrite Hne, Hc.
    split; [by inversion 1 | intros ->; constructor].
  - intros -> path err. unfold acquire, load. cbn [String.eqb].
    destruct (Str.has_prefix "http://" input || Str.has_prefix "https://" input).
    + destruct (httpGet w input) as [? | [[code status] body]]; [done |].
      destruct (code =? 200); [| done].
      by destruct (NewDocumentFromReader w body).
    + destruct (osOpen w input) as [? | body]; [done |].
      by destruct (NewDocumentFromReader w body).
Qed.

Lemma output_created_first_witness :
  runReport (withOpen (λ _, inl "no such file")
               {| osCreate := λ _, Some "permission denied";
                  httpGet := httpGet sampleWorld; osOpen := osOpen sampleWorld;
                  NewDocumentFromReader := NewDocumentFromReader sampleWorld |})
            "report.html" "/out.md"
            (Fatal "create output file </out.md> failed: [permission denied]").
Proof.
  destruct (output_created_first
              (withOpen (λ _, inl "no such file")
                 {| osCreate := λ _, Some "permission denied";
                    httpGet := httpGet sampleWorld; osOpen := osOpen sampleWorld;
                    NewDocumentFromReader := NewDocumentFromReader sampleWorld |})
              "report.html" "/out.md") as [H _].
  apply (H "permission denied"); [discriminate | reflexivity | reflexivity].
Defined.


(** * The handle of an entry *)













